(** * Middleware resolution and binding (packages/core/middleware/middleware-module.ts)

    A shallow embedding of [MiddlewareModule]: the configuration phase
    ([register], [resolveMiddleware], [loadConfiguration]) and the binding
    phase ([registerMiddleware] down to [bindHandlerWithProxy]).

    Asynchrony is modelled with a logical clock.  A promise either settles at
    a tick with an outcome or stays pending for ever; an [async] function is a
    [Task]: started at a tick, it yields the promise it returns and the
    events it causes, each stamped with the tick at which it happens.  Every
    [await] resumes strictly after the awaited promise has settled and
    strictly after the tick at which the [await] was reached.  The events of
    a run are listed in the order in which the code starts them; it is the
    tick of an event that says when it happens.

    The helper objects that [register] stores in the [MiddlewareModule] are
    taken to exist, [instance.resolve()] is taken to behave alike at every
    call, and the router and the exception filter factory are taken not to
    throw. *)

From stdpp Require Import base option list strings gmap.

(** ** Errors *)

Inductive error : Type :=
| InvalidMiddlewareException (name : string)
| RuntimeException
| TypeError
| UserError (id : nat).

(** ** Promises on a logical clock *)

Definition tick := nat.

Inductive outcome (A : Type) : Type :=
| Fulfilled (a : A)
| Rejected (e : error).
Arguments Fulfilled {A} a.
Arguments Rejected {A} e.

Inductive promise (A : Type) : Type :=
| Settled (at_tick : tick) (o : outcome A)
| Pending.
Arguments Settled {A} at_tick o.
Arguments Pending {A}.

(** What a call into user code does: it returns a value or throws. *)
Inductive call_outcome (A : Type) : Type :=
| Returned (a : A)
| Threw (e : error).
Arguments Returned {A} a.
Arguments Threw {A} e.

(** ** Values handed around at bind time and at request time *)

Record RequestArgs : Type := { req : nat; res : nat; next : nat }.

(** What invoking a handler [(req, res, next) => ...] does. *)
Inductive call_result : Type :=
| Returns
| Throws (e : error)
| ReturnsAwaitable (p : promise unit).

(** A value a native promise can be fulfilled with: never a promise or a
    thenable, since promise resolution unwraps those. *)
Inductive plain : Type :=
| PFunction (body : RequestArgs → call_result)
| PUndefined
| PObject (id : nat).

(** A value [instance.resolve()] can return: a plain value, a native promise,
    or a thenable, an object of another class whose [then] method settles as
    [then_settles] says. *)
Inductive value : Type :=
| VPlain (v : plain)
| VThenable (then_settles : promise plain)
| VPromise (p : promise plain).

Definition instanceof_Promise (v : value) : bool :=
  match v with
  | VPromise _ => true
  | _ => false
  end.

(** ** Middleware types, instances and wrappers *)

Record Type_ : Type := { name : string }.

Record NestMiddleware : Type :=
  { resolve : option (unit → call_outcome value) }.

Record MiddlewareWrapper : Type :=
  { instance : NestMiddleware; metatype : Type_ }.

(** [config.middleware] is declared as one type or as an array of types. *)
Inductive one_or_many (A : Type) : Type :=
| Single (a : A)
| Many (l : list A).
Arguments Single {A} a.
Arguments Many {A} l.

(** [[].concat(x)]: an array argument is spliced, anything else is appended
    as one element. *)
Definition concat_into_empty {A} (x : one_or_many A) : list A :=
  match x with
  | Single a => [a]
  | Many l => l
  end.

Record MiddlewareConfiguration : Type :=
  { middleware : one_or_many Type_; forRoutes : list string }.

(** Modelled from the spec: the [RequestMethod] enumeration is not part of
    this file; it is the closed set of methods, [ALL] standing for the
    router's entry point for all verbs. *)
Inductive RequestMethod : Type :=
| GET | POST | PUT | DELETE | PATCH | ALL | OPTIONS | HEAD.

(** The router and the application configuration are objects of other
    modules; here they are told apart by a number. *)
Definition ApplicationRef := nat.
Definition ApplicationConfig := nat.

(** ** Collaborators that live outside this file *)

(** Modelled from the spec: [RouterExceptionFilters.create] is not part of
    this file.  The exception handler built per binding is a closure over the
    middleware instance and its handling function. *)
Record ExceptionsHandler : Type :=
  { handler_instance : NestMiddleware;
    handler_callback : unit → call_outcome value }.

(** Modelled from the spec: [RouterExceptionFilters.create(instance,
    callback)] builds the handler for one binding. *)
Definition routerExceptionFilter_create (instance : NestMiddleware)
    (callback : unit → call_outcome value) : ExceptionsHandler :=
  {| handler_instance := instance; handler_callback := callback |}.

(** Modelled from the spec: [RouterMethodFactory.get] is not part of this
    file.  It maps a method to the router's registration entry point for that
    method; [.bind(applicationRef)] ties it to the router. *)
Record RouterFn : Type :=
  { router_target : ApplicationRef; router_verb : RequestMethod }.

(** Modelled from the spec: [RouterMethodFactory.get(router, method)] bound
    to the router. *)
Definition routerMethodFactory_get (applicationRef : ApplicationRef)
    (method : RequestMethod) : RouterFn :=
  {| router_target := applicationRef; router_verb := method |}.

(** Modelled from the spec: [RouterProxy.createProxy] is not part of this
    file.  The proxy is a function [(req, res, next)] closed over the target
    handler and the exception handler; [invoke_proxy] below is its body. *)
Record Proxy : Type :=
  { proxy_target : value; proxy_handler : ExceptionsHandler }.

(** Modelled from the spec: [RouterProxy.createProxy(targetCallback,
    exceptionsHandler)] wraps the handler. *)
Definition createProxy (targetCallback : value)
    (exceptionsHandler : ExceptionsHandler) : Proxy :=
  {| proxy_target := targetCallback; proxy_handler := exceptionsHandler |}.

(** ** Events *)

Inductive event : Type :=
| ExceptionsHandlerCreated (h : ExceptionsHandler)
| RouterMethodLookedUp (applicationRef : ApplicationRef) (method : RequestMethod)
| ResolveInvoked (i : NestMiddleware)
| RouterCalled (router : RouterFn) (path : string) (proxy : Proxy)
| TargetInvoked (target : value) (args : RequestArgs)
| ExceptionHandled (h : ExceptionsHandler) (e : error) (args : RequestArgs).

Definition is_RouterCalled (ev : event) : bool :=
  match ev with
  | RouterCalled _ _ _ => true
  | _ => false
  end.

Definition is_ExceptionHandled (ev : event) : bool :=
  match ev with
  | ExceptionHandled _ _ _ => true
  | _ => false
  end.

(** ** Tasks: the bodies of [async] functions *)

Record run (A : Type) : Type :=
  Run { completion : promise A; trace : list (tick * event) }.
Arguments Run {A} completion trace.
Arguments completion {A} r.
Arguments trace {A} r.

Definition Task (A : Type) : Type := tick → run A.

Definition ret {A} (a : A) : Task A :=
  λ now, Run (Settled now (Fulfilled a)) [].

(** [throw e] inside an [async] body rejects the promise of that body. *)
Definition throw {A} (e : error) : Task A :=
  λ now, Run (Settled now (Rejected e)) [].

Definition emit (ev : event) : Task unit :=
  λ now, Run (Settled now (Fulfilled ())) [(now, ev)].

Definition bind {A B} (m : Task A) (k : A → Task B) : Task B :=
  λ now,
    let r := m now in
    match completion r with
    | Settled t (Fulfilled a) =>
        let r' := k a t in
        Run (completion r') (trace r ++ trace r')
    | Settled t (Rejected e) => Run (Settled t (Rejected e)) (trace r)
    | Pending => Run Pending (trace r)
    end.

#[export] Instance Task_ret : MRet Task := @ret.
#[export] Instance Task_bind : MBind Task := λ A B k m, bind m k.

(** [await p]: the body resumes one tick after [p] has settled, and never
    in the tick in which the [await] was reached. *)
Definition await {A} (p : promise A) : Task A :=
  λ now,
    match p with
    | Settled t o => Run (Settled (S (Nat.max now t)) o) []
    | Pending => Run Pending []
    end.

(** [await v] for a value: a promise or a thenable is waited for, and a plain
    value comes back one tick later. *)
Definition await_value (v : value) : Task value :=
  λ now,
    match v with
    | VPlain x => Run (Settled (S now) (Fulfilled (VPlain x))) []
    | VThenable q | VPromise q =>
        match q with
        | Settled t (Fulfilled x) =>
            Run (Settled (S (Nat.max now t)) (Fulfilled (VPlain x))) []
        | Settled t (Rejected e) =>
            Run (Settled (S (Nat.max now t)) (Rejected e)) []
        | Pending => Run Pending []
        end
    end.

(** Calling an [async] function: its body runs from the current tick; the
    caller continues at once, holding the returned promise. *)
Definition call_async {A} (body : Task A) : Task (promise A) :=
  λ now,
    let r := body now in
    Run (Settled now (Fulfilled (completion r))) (trace r).

(** [xs.map(async x => ...)]: the callbacks are called in order. *)
Fixpoint map_async {A B} (f : A → Task B) (xs : list A)
    : Task (list (promise B)) :=
  match xs with
  | [] => ret []
  | x :: xs' =>
      p ← call_async (f x);
      ps ← map_async f xs';
      ret (p :: ps)
  end.

(** ** [Promise.all] *)

(** The earliest rejection among [ps]; among rejections in the same tick the
    leftmost, the order in which [Promise.all] subscribes. *)
Fixpoint first_rejection {A} (ps : list (promise A)) : option (tick * error) :=
  match ps with
  | [] => None
  | p :: ps' =>
      match p, first_rejection ps' with
      | Settled t (Rejected e), Some (t', e') =>
          if (t <=? t')%nat then Some (t, e) else Some (t', e')
      | Settled t (Rejected e), None => Some (t, e)
      | _, r => r
      end
  end.

(** The tick at which the last of [ps] is fulfilled and the values, when all
    of them are. *)
Fixpoint all_fulfilled {A} (now : tick) (ps : list (promise A))
    : option (tick * list A) :=
  match ps with
  | [] => Some (now, [])
  | Settled t (Fulfilled a) :: ps' =>
      match all_fulfilled now ps' with
      | Some (t', vs) => Some (Nat.max t t', a :: vs)
      | None => None
      end
  | _ :: _ => None
  end.

(** The promise [Promise.all(ps)] returns, when called at tick [now]: it is
    rejected as soon as one of [ps] is, and fulfilled once all of them are. *)
Definition promise_all {A} (now : tick) (ps : list (promise A))
    : promise (list A) :=
  match first_rejection ps with
  | Some (t, e) => Settled t (Rejected e)
  | None =>
      match all_fulfilled now ps with
      | Some (t, vs) => Settled t (Fulfilled vs)
      | None => Pending
      end
  end.

Definition Promise_all {A} (ps : list (promise A)) : Task (promise (list A)) :=
  λ now, Run (Settled now (Fulfilled (promise_all now ps))) [].

(** ** The middleware builder and container *)

(** The route normalizer is an object of another module, told apart by a
    number. *)
Definition RoutesMapper := nat.

(** Modelled from the spec: [MiddlewareBuilder] is not part of this file.
    [apply(...).forRoutes(...)] adds configurations to the builder, and
    [build()] yields them in order. *)
Record MiddlewareBuilder : Type :=
  { builder_routesMapper : RoutesMapper;
    middlewareCollection : list MiddlewareConfiguration }.

(** Modelled from the spec: [new MiddlewareBuilder(routesMapper)] holds no
    configuration yet. *)
Definition new_MiddlewareBuilder (routesMapper : RoutesMapper) : MiddlewareBuilder :=
  {| builder_routesMapper := routesMapper; middlewareCollection := [] |}.

(** Modelled from the spec: [build()] yields the ordered list of
    configurations. *)
Definition build (b : MiddlewareBuilder) : list MiddlewareConfiguration :=
  middlewareCollection b.

(** A value a [configure] hook can return. *)
Inductive hook_value : Type :=
| HBuilder (b : MiddlewareBuilder)
| HUndefined
| HPromise (p : promise unit)
| HOther (id : nat).

Definition instanceof_MiddlewareBuilder (v : hook_value) : bool :=
  match v with
  | HBuilder _ => true
  | _ => false
  end.

(** A module instance.  The hook receives the builder, changes it in place
    (the builder after the call is the first component) and returns or
    throws. *)
Record NestModule : Type :=
  { configure :
      option (MiddlewareBuilder → MiddlewareBuilder * call_outcome hook_value) }.

Module Injector.
Record Module_ : Type := { instance : NestModule }.
End Injector.

Record NestContainer : Type :=
  { modules : list (string * Injector.Module_);
    applicationRef : ApplicationRef }.

(** Modelled from the spec: [container.getModules()] is the module map of
    the injector, read-only here. *)
Definition getModules (container : NestContainer)
    : list (string * Injector.Module_) :=
  modules container.

(** Modelled from the spec: [MiddlewareContainer] is not part of this file.
    Per module it holds a map from type name to wrapper and an ordered list
    of configurations; modules are kept in the order of their first
    configuration, the iteration order of a [Map]. *)
Record MiddlewareContainer : Type :=
  { wrappers : gmap string (gmap string MiddlewareWrapper);
    configurationSets : list (string * list MiddlewareConfiguration) }.

Fixpoint append_configs (configList : list MiddlewareConfiguration)
    (module : string) (sets : list (string * list MiddlewareConfiguration))
    : list (string * list MiddlewareConfiguration) :=
  match sets with
  | [] => [(module, configList)]
  | (m, cs) :: rest =>
      if decide (m = module) then (m, cs ++ configList) :: rest
      else (m, cs) :: append_configs configList module rest
  end.

(** Modelled from the spec: [addConfig] appends and never deduplicates. *)
Definition addConfig (configList : list MiddlewareConfiguration)
    (module : string) (c : MiddlewareContainer) : MiddlewareContainer :=
  {| wrappers := wrappers c;
     configurationSets := append_configs configList module (configurationSets c) |}.

(** Modelled from the spec: [getConfigs()] is a read-only view of the
    configurations, module by module. *)
Definition getConfigs (c : MiddlewareContainer)
    : list (string * list MiddlewareConfiguration) :=
  configurationSets c.

(** Modelled from the spec: [getMiddleware] returns the module's map from
    type name to wrapper.  For a module without one it creates an empty map;
    looking a name up in it finds nothing, as here. *)
Definition getMiddleware (c : MiddlewareContainer) (module : string)
    : gmap string MiddlewareWrapper :=
  default ∅ (wrappers c !! module).

Section MiddlewareModule.

(** The fields of the [MiddlewareModule] object, as [register] sets them.
    [resolveInstances] stands for [this.resolver.resolveInstances], an
    [async] method of the resolver: the promise it returns for a module. *)
Variable routesMapper : RoutesMapper.
Variable resolveInstances : Injector.Module_ → string → promise unit.

(** *** Configuration phase *)

Definition loadConfiguration (middlewareContainer : MiddlewareContainer)
    (instance : NestModule) (module : string)
    : MiddlewareContainer * call_outcome unit :=
  match configure instance with
  | None => (middlewareContainer, Returned ())
  | Some configure_hook =>
      let middlewareBuilder := new_MiddlewareBuilder routesMapper in
      let '(middlewareBuilder, returned) := configure_hook middlewareBuilder in
      match returned with
      | Threw e => (middlewareContainer, Threw e)
      | Returned _ =>
          if negb (instanceof_MiddlewareBuilder (HBuilder middlewareBuilder))
          then (middlewareContainer, Returned ())
          else
            let config := build middlewareBuilder in
            (addConfig config module middlewareContainer, Returned ())
      end
  end.

(** The callback of [resolveMiddleware]: [loadConfiguration] runs before
    the first [await], so its change of the container is in place when the
    next callback starts.  The container given back is the one the hooks
    leave: what the resolver writes into it afterwards, the wrappers, is
    outside this embedding, and only its promise is. *)
Definition resolve_callback (middlewareContainer : MiddlewareContainer)
    (entry : string * Injector.Module_) : MiddlewareContainer * Task unit :=
  let '(name, module) := entry in
  let instance := Injector.instance module in
  match loadConfiguration middlewareContainer instance name with
  | (c, Threw e) => (c, throw e)
  | (c, Returned _) => (c, await (resolveInstances module name))
  end.

(** [entries.map(async ...)] for callbacks that change the container before
    their first [await]. *)
Fixpoint map_async_from {A} (f : MiddlewareContainer → A → MiddlewareContainer * Task unit)
    (c : MiddlewareContainer) (xs : list A)
    : MiddlewareContainer * Task (list (promise unit)) :=
  match xs with
  | [] => (c, ret [])
  | x :: xs' =>
      let '(c1, body) := f c x in
      let '(c2, rest) := map_async_from f c1 xs' in
      (c2, p ← call_async body; ps ← rest; ret (p :: ps))
  end.

Definition resolveMiddleware (middlewareContainer : MiddlewareContainer)
    (modules : list (string * Injector.Module_))
    : MiddlewareContainer * Task unit :=
  let '(c, callbacks) :=
    map_async_from resolve_callback middlewareContainer modules in
  (c, ps ← callbacks; all ← Promise_all ps; _ ← await all; ret ()).

Definition register (middlewareContainer : MiddlewareContainer)
    (container : NestContainer) (config : ApplicationConfig)
    : MiddlewareContainer * Task unit :=
  let modules := getModules container in
  let '(c, body) := resolveMiddleware middlewareContainer modules in
  (c, p ← call_async body; await p).

(** *** Binding phase *)

Definition bindHandlerWithProxy (exceptionsHandler : ExceptionsHandler)
    (router : RouterFn) (middleware : value) (path : string) : Task unit :=
  let proxy := createProxy middleware exceptionsHandler in
  emit (RouterCalled router path proxy).

Definition bindHandler (instance : NestMiddleware) (metatype : Type_)
    (applicationRef : ApplicationRef) (method : RequestMethod)
    (path : string) : Task unit :=
  match resolve instance with
  | None => throw (InvalidMiddlewareException (name metatype))
  | Some instance_resolve =>
      let exceptionsHandler :=
        routerExceptionFilter_create instance instance_resolve in
      _ ← emit (ExceptionsHandlerCreated exceptionsHandler);
      let router := routerMethodFactory_get applicationRef method in
      _ ← emit (RouterMethodLookedUp applicationRef method);
      let bindWithProxy obj :=
        bindHandlerWithProxy exceptionsHandler router obj path in
      _ ← emit (ResolveInvoked instance);
      match instance_resolve () with
      | Threw e => throw e
      | Returned resolve =>
          if negb (instanceof_Promise resolve) then bindWithProxy resolve
          else
            middleware ← await_value resolve;
            bindWithProxy middleware
      end
  end.

(** The callback [async metatype => ...] of [registerRouteMiddleware]. *)
Definition route_middleware_callback (middlewareContainer : MiddlewareContainer)
    (routePath : string) (module : string) (applicationRef : ApplicationRef)
    (metatype : Type_) : Task unit :=
  let collection := getMiddleware middlewareContainer module in
  match collection !! name metatype with
  | None => throw RuntimeException
  | Some middleware =>
      let instance := instance middleware in
      p ← call_async
            (bindHandler instance metatype applicationRef ALL routePath);
      await p
  end.

Definition registerRouteMiddleware (middlewareContainer : MiddlewareContainer)
    (routePath : string) (config : MiddlewareConfiguration)
    (module : string) (applicationRef : ApplicationRef) : Task unit :=
  let middlewareCollection := concat_into_empty (middleware config) in
  ps ← map_async
         (route_middleware_callback middlewareContainer routePath module
            applicationRef)
         middlewareCollection;
  all ← Promise_all ps;
  _ ← await all;
  ret ().

(** The callback [async routePath => ...] of [registerMiddlewareConfig]. *)
Definition route_callback (middlewareContainer : MiddlewareContainer)
    (config : MiddlewareConfiguration) (module : string)
    (applicationRef : ApplicationRef) (routePath : string) : Task unit :=
  p ← call_async
        (registerRouteMiddleware middlewareContainer routePath config module
           applicationRef);
  await p.

Definition registerMiddlewareConfig (middlewareContainer : MiddlewareContainer)
    (config : MiddlewareConfiguration) (module : string)
    (applicationRef : ApplicationRef) : Task unit :=
  ps ← map_async
         (route_callback middlewareContainer config module applicationRef)
         (forRoutes config);
  all ← Promise_all ps;
  _ ← await all;
  ret ().

(** The callback [async config => ...] inside [registerAllConfigs]. *)
Definition config_callback (middlewareContainer : MiddlewareContainer)
    (module : string) (applicationRef : ApplicationRef)
    (config : MiddlewareConfiguration) : Task unit :=
  p ← call_async
        (registerMiddlewareConfig middlewareContainer config module
           applicationRef);
  await p.

Definition registerAllConfigs (middlewareContainer : MiddlewareContainer)
    (applicationRef : ApplicationRef) (module : string)
    (middlewareConfig : list MiddlewareConfiguration)
    : Task (list (promise unit)) :=
  map_async (config_callback middlewareContainer module applicationRef)
    middlewareConfig.

(** The callback [async ([module, moduleConfigs]) => ...] of
    [registerMiddleware]. *)
Definition module_callback (middlewareContainer : MiddlewareContainer)
    (applicationRef : ApplicationRef)
    (entry : string * list MiddlewareConfiguration) : Task unit :=
  let '(module, moduleConfigs) := entry in
  ps ← registerAllConfigs middlewareContainer applicationRef module
         moduleConfigs;
  all ← Promise_all ps;
  _ ← await all;
  ret ().

Definition registerMiddleware (middlewareContainer : MiddlewareContainer)
    (applicationRef : ApplicationRef) : Task unit :=
  let configs := getConfigs middlewareContainer in
  ps ← map_async (module_callback middlewareContainer applicationRef) configs;
  all ← Promise_all ps;
  _ ← await all;
  ret ().

End MiddlewareModule.

(** ** Request time: the proxy *)

(** Calling a value as a function; only functions are callable. *)
Definition call_value (v : value) (args : RequestArgs) : call_result :=
  match v with
  | VPlain (PFunction body) => body args
  | _ => Throws TypeError
  end.

Inductive proxy_result : Type :=
| Completed
| Escaped (e : error).

(** Modelled from the spec: the body of the function [createProxy] returns.
    It invokes the target handler; if that throws, or returns an awaitable
    that rejects, it invokes [exceptionHandler.handle(error, req, res, next)]
    instead of letting the error escape. *)
Definition invoke_proxy (proxy : Proxy) (args : RequestArgs)
    : list event * proxy_result :=
  let targetCallback := proxy_target proxy in
  let exceptionsHandler := proxy_handler proxy in
  let invoked := TargetInvoked targetCallback args in
  match call_value targetCallback args with
  | Returns => ([invoked], Completed)
  | Throws e => ([invoked; ExceptionHandled exceptionsHandler e args], Completed)
  | ReturnsAwaitable (Settled _ (Rejected e)) =>
      ([invoked; ExceptionHandled exceptionsHandler e args], Completed)
  | ReturnsAwaitable _ => ([invoked], Completed)
  end.

(** ** Reading traces *)

Definition events {A} (r : run A) : list event := (trace r).*2.

(** The router registrations of a run, with the tick of each. *)
Definition registrations {A} (r : run A) : list (tick * event) :=
  filter (λ te, is_RouterCalled te.2 = true) (trace r).

(** ** Notions used to state the properties *)

(** The promise of a body that awaits [p] at [now] and then returns. *)
Definition settle_after {A} (now : tick) (p : promise A) : promise unit :=
  match p with
  | Settled t (Fulfilled _) => Settled (S (Nat.max now t)) (Fulfilled ())
  | Settled t (Rejected e) => Settled (S (Nat.max now t)) (Rejected e)
  | Pending => Pending
  end.

Definition is_rejected {A} (p : promise A) : Prop :=
  ∃ t e, p = Settled t (Rejected e).

Definition is_fulfilled {A} (p : promise A) : bool :=
  match p with
  | Settled _ (Fulfilled _) => true
  | _ => false
  end.

(** A promise whose rejection, if any, is not earlier than tick [d], and is
    the internal error when it falls on [d]. *)
Definition late_or_internal {A} (d : tick) (p : promise A) : Prop :=
  ∀ t e, p = Settled t (Rejected e) → d ≤ t ∧ (t = d → e = RuntimeException).

(** What [bindHandler] has done by the time it calls [instance.resolve()]. *)
Definition before_resolve (instance : NestMiddleware)
    (instance_resolve : unit → call_outcome value)
    (applicationRef : ApplicationRef) (method : RequestMethod) (now : tick)
    : list (tick * event) :=
  [(now, ExceptionsHandlerCreated
           (routerExceptionFilter_create instance instance_resolve));
   (now, RouterMethodLookedUp applicationRef method);
   (now, ResolveInvoked instance)].

(** The router call that binds [handler] for [instance]. *)
Definition binding (instance : NestMiddleware)
    (instance_resolve : unit → call_outcome value)
    (applicationRef : ApplicationRef) (method : RequestMethod)
    (path : string) (handler : value) : event :=
  RouterCalled (routerMethodFactory_get applicationRef method) path
    (createProxy handler
       (routerExceptionFilter_create instance instance_resolve)).

(** A tuple (module, configuration, route path, middleware type) that the
    phase binds. *)
Definition bound_tuple (middlewareContainer : MiddlewareContainer)
    (module : string) (config : MiddlewareConfiguration)
    (routePath : string) (metatype : Type_) : Prop :=
  (∃ moduleConfigs, (module, moduleConfigs) ∈ getConfigs middlewareContainer
                    ∧ config ∈ moduleConfigs)
  ∧ routePath ∈ forRoutes config
  ∧ metatype ∈ concat_into_empty (middleware config).

(** The tuples in the order in which the phase starts their bindings. *)
Definition bound_tuples (middlewareContainer : MiddlewareContainer)
    : list (string * MiddlewareConfiguration * string * Type_) :=
  entry ← getConfigs middlewareContainer;
  config ← entry.2;
  routePath ← forRoutes config;
  metatype ← concat_into_empty (middleware config);
  [(entry.1, config, routePath, metatype)].

(** The binding of one tuple, started at [now]. *)
Definition bind_tuple (middlewareContainer : MiddlewareContainer)
    (applicationRef : ApplicationRef) (now : tick)
    (tuple : string * MiddlewareConfiguration * string * Type_) : run unit :=
  let '(module, _, routePath, metatype) := tuple in
  route_middleware_callback middlewareContainer routePath module
    applicationRef metatype now.

(** The error a module's [configure] hook throws, if it throws. *)
Definition configure_throws (routesMapper : RoutesMapper) (instance : NestModule)
    : option error :=
  match configure instance with
  | Some configure_hook =>
      match (configure_hook (new_MiddlewareBuilder routesMapper)).2 with
      | Threw e => Some e
      | Returned _ => None
      end
  | None => None
  end.

(** When and with what a module fails during [register] started at [now]:
    at once when [configure] throws, and otherwise one tick after
    [resolveInstances] is rejected. *)
Definition module_failure (routesMapper : RoutesMapper)
    (resolveInstances : Injector.Module_ → string → promise unit)
    (now : tick) (entry : string * Injector.Module_) : option (tick * error) :=
  match configure_throws routesMapper (Injector.instance entry.2) with
  | Some e => Some (now, e)
  | None =>
      match resolveInstances entry.2 entry.1 with
      | Settled t (Rejected e) => Some (S (Nat.max now t), e)
      | _ => None
      end
  end.

Definition module_settles (routesMapper : RoutesMapper)
    (resolveInstances : Injector.Module_ → string → promise unit)
    (now : tick) (entry : string * Injector.Module_) : promise unit :=
  match configure_throws routesMapper (Injector.instance entry.2) with
  | Some e => Settled now (Rejected e)
  | None => completion (await (resolveInstances entry.2 entry.1) now)
  end.

(** ** Scenario values *)

Module Scenario.
Local Open Scope string_scope.

Definition f : plain := PFunction (λ _, Returns).
Definition failing : plain := PFunction (λ _, Throws (UserError 1)).
Definition rejecting : plain :=
  PFunction (λ _, ReturnsAwaitable (Settled 4 (Rejected (UserError 2)))).

Definition Logger : Type_ := {| name := "Logger" |}.
Definition Auth : Type_ := {| name := "Auth" |}.

(** An object with a [then] method that is not a native promise. *)
Definition thenable : value := VThenable (Settled 5 (Fulfilled f)).

Definition resolve_to (v : value) : unit → call_outcome value :=
  λ _, Returned v.
Definition resolve_throwing (e : error) : unit → call_outcome value :=
  λ _, Threw e.

Definition middleware_of (r : unit → call_outcome value) : NestMiddleware :=
  {| resolve := Some r |}.
Definition without_resolve : NestMiddleware := {| resolve := None |}.

Definition users : MiddlewareConfiguration :=
  {| middleware := Single Logger; forRoutes := ["/users"] |}.
Definition users_guarded : MiddlewareConfiguration :=
  {| middleware := Many [Logger; Auth]; forRoutes := ["/users"] |}.

Definition empty_container : MiddlewareContainer :=
  {| wrappers := ∅; configurationSets := [] |}.

(** Module "M" with [config], and [logger] resolved for [Logger]. *)
Definition container_with (config : MiddlewareConfiguration)
    (logger : NestMiddleware) : MiddlewareContainer :=
  {| wrappers :=
       {[ "M" := {[ "Logger" := {| instance := logger; metatype := Logger |} ]} ]};
     configurationSets := [("M", [config])] |}.

(** [configure(consumer)] applies [Logger] to "/users" and then returns,
    or throws, as [result] says. *)
Definition applying (result : call_outcome hook_value)
    : MiddlewareBuilder → MiddlewareBuilder * call_outcome hook_value :=
  λ b, ({| builder_routesMapper := builder_routesMapper b;
           middlewareCollection := middlewareCollection b ++ [users] |},
        result).

Definition module_with (result : call_outcome hook_value) : Injector.Module_ :=
  {| Injector.instance := {| configure := Some (applying result) |} |}.
Definition module_without_configure : Injector.Module_ :=
  {| Injector.instance := {| configure := None |} |}.

Definition orders : MiddlewareConfiguration :=
  {| middleware := Single Logger; forRoutes := ["/orders"] |}.

(** Modules "M" and "N", each with its own instance resolved for [Logger]. *)
Definition two_modules (first second : NestMiddleware) : MiddlewareContainer :=
  {| wrappers :=
       {[ "M" := {[ "Logger" := {| instance := first; metatype := Logger |} ]};
          "N" := {[ "Logger" := {| instance := second; metatype := Logger |} ]} ]};
     configurationSets := [("M", [users]); ("N", [orders])] |}.

(** The resolver fails for module "M" only. *)
Definition failing_for_M : Injector.Module_ → string → promise unit :=
  λ _ name,
    if decide (name = "M") then Settled 0 (Rejected (UserError 5))
    else Settled 0 (Fulfilled ()).

Definition container_of (m : Injector.Module_) : NestContainer :=
  {| modules := [("M", m)]; applicationRef := 0 |}.

Definition resolved_at (t : tick) : Injector.Module_ → string → promise unit :=
  λ _ _, Settled t (Fulfilled ()).

Definition args : RequestArgs := {| req := 1; res := 2; next := 3 |}.

End Scenario.

(** The configurations held for a module; none for a module without any. *)
Fixpoint lookup_configs (module : string)
    (sets : list (string * list MiddlewareConfiguration))
    : list MiddlewareConfiguration :=
  match sets with
  | [] => []
  | (m, cs) :: rest =>
      if decide (m = module) then cs else lookup_configs module rest
  end.

Definition configs_of (module : string) (c : MiddlewareContainer)
    : list MiddlewareConfiguration :=
  lookup_configs module (getConfigs c).

(** The handlers a run has bound: router function, path and target. *)
Definition bound_handlers {A} (r : run A) : list (RouterFn * string * value) :=
  omap (λ te : tick * event,
          match te.2 with
          | RouterCalled router path proxy =>
              Some (router, path, proxy_target proxy)
          | _ => None
          end) (trace r).

Definition handled (evs : list event) : list event :=
  filter (λ ev, is_ExceptionHandled ev = true) evs.

Ltac task_unfold :=
  unfold mbind, Task_bind, mret, Task_ret, bind, ret, throw, emit, await,
    await_value, call_async, Promise_all in *.

(** ** Notions used to state the further properties *)

(** The tick and the error of a promise that is rejected. *)
Definition rejection {A} (p : promise A) : option (tick * error) :=
  match p with
  | Settled t (Rejected e) => Some (t, e)
  | _ => None
  end.

(** The earlier of two rejections, the left one when they share a tick. *)
Definition earlier (a b : option (tick * error)) : option (tick * error) :=
  match a, b with
  | Some (t, e), Some (t', e') => if (t <=? t')%nat then a else b
  | Some x, None => Some x
  | None, r => r
  end.

(** A rejection [k] ticks later. *)
Definition later (k : nat) (r : tick * error) : tick * error := (k + r.1, r.2).

(** A rejection, if any, that is not earlier than [now]. *)
Definition not_before (now : tick) (r : option (tick * error)) : Prop :=
  ∀ t e, r = Some (t, e) → now ≤ t.

(** The promises of the bindings of one route, in the order of the
    middleware types. *)
Definition route_bindings (middlewareContainer : MiddlewareContainer)
    (applicationRef : ApplicationRef) (now : tick) (routePath : string)
    (config : MiddlewareConfiguration) (module : string)
    : list (promise unit) :=
  (λ metatype,
     completion (route_middleware_callback middlewareContainer routePath
                   module applicationRef metatype now))
    <$> concat_into_empty (middleware config).

Definition is_pending {A} (p : promise A) : bool :=
  match p with
  | Pending => true
  | _ => false
  end.

(** The configurations a module's [configure] hook has put into its builder
    when it returns; none when the module has no hook or the hook throws. *)
Definition loaded_by (routesMapper : RoutesMapper) (instance : NestModule)
    : list MiddlewareConfiguration :=
  match configure instance with
  | Some configure_hook =>
      match configure_hook (new_MiddlewareBuilder routesMapper) with
      | (built, Returned _) => build built
      | (_, Threw _) => []
      end
  | None => []
  end.

Definition is_ResolveInvoked (ev : event) : bool :=
  match ev with
  | ResolveInvoked _ => true
  | _ => false
  end.

(** The events of request time: a handler or an exception handler is run. *)
Definition is_request_time (ev : event) : bool :=
  match ev with
  | TargetInvoked _ _ | ExceptionHandled _ _ _ => true
  | _ => false
  end.

(** A tuple whose middleware type has a wrapper with a [resolve] member. *)
Definition resolvable (middlewareContainer : MiddlewareContainer)
    (tuple : string * MiddlewareConfiguration * string * Type_) : bool :=
  let '(module, _, _, metatype) := tuple in
  match getMiddleware middlewareContainer module !! name metatype with
  | Some middleware =>
      match resolve (instance middleware) with
      | Some _ => true
      | None => false
      end
  | None => false
  end.

(** The router call of a tuple whose [resolve()] returns a value that is not
    a native promise. *)
Definition direct_binding (middlewareContainer : MiddlewareContainer)
    (applicationRef : ApplicationRef)
    (tuple : string * MiddlewareConfiguration * string * Type_)
    : option event :=
  let '(module, _, routePath, metatype) := tuple in
  match getMiddleware middlewareContainer module !! name metatype with
  | Some middleware =>
      match resolve (instance middleware) with
      | Some instance_resolve =>
          match instance_resolve () with
          | Returned returned =>
              if instanceof_Promise returned then None
              else Some (binding (instance middleware) instance_resolve
                           applicationRef ALL routePath returned)
          | Threw _ => None
          end
      | None => None
      end
  | None => None
  end.

(** * Properties *)

(** ** Running tasks *)

Lemma map_async_run {A B} (f : A → Task B) (xs : list A) (now : tick) :
  map_async f xs now =
  Run (Settled now (Fulfilled ((λ x, completion (f x now)) <$> xs)))
      (xs ≫= λ x, trace (f x now)).
Proof.
  induction xs as [|x xs IH]; [done|].
  cbn [map_async]. task_unfold. cbn. rewrite IH. cbn.
  by rewrite app_nil_r.
Qed.

Lemma await_all_run {A B} (f : A → Task B) (xs : list A) (now : tick) :
  (ps ← map_async f xs; all ← Promise_all ps; _ ← await all; ret ()) now =
  Run (settle_after now (promise_all now ((λ x, completion (f x now)) <$> xs)))
      (xs ≫= λ x, trace (f x now)).
Proof.
  unfold mbind at 1, Task_bind at 1, bind at 1. rewrite map_async_run. cbn.
  task_unfold. cbn.
  destruct (promise_all _ _) as [t [a|e]|]; cbn; by rewrite !app_nil_r.
Qed.

Lemma call_await_run {A} (body : Task A) (now : tick) :
  (p ← call_async body; await p) now =
  Run (match completion (body now) with
       | Settled t o => Settled (S (Nat.max now t)) o
       | Pending => Pending
       end) (trace (body now)).
Proof.
  task_unfold. cbn. destruct (completion (body now)) as [t [a|e]|]; cbn;
    by rewrite app_nil_r.
Qed.

(** ** [Promise.all] rejects with the first rejection *)

Lemma first_rejection_cons {A} (p : promise A) (ps : list (promise A)) :
  first_rejection (p :: ps) =
  match p, first_rejection ps with
  | Settled t (Rejected e), Some (t', e') =>
      if (t <=? t')%nat then Some (t, e) else Some (t', e')
  | Settled t (Rejected e), None => Some (t, e)
  | _, r => r
  end.
Proof. done. Qed.

Lemma first_rejection_elem {A} (ps : list (promise A)) t e :
  first_rejection ps = Some (t, e) → Settled t (Rejected e) ∈ ps.
Proof.
  induction ps as [|p ps IH]; [done|].
  rewrite first_rejection_cons.
  destruct p as [t0 [a|e0]|]; [intros; right; auto | | intros; right; auto].
  destruct (first_rejection ps) as [[t' e']|].
  - destruct (Nat.leb_spec t0 t'); intros [= <- <-]; [left | right; auto].
  - intros [= <- <-]. left.
Qed.

Lemma first_rejection_None {A} (ps : list (promise A)) :
  first_rejection ps = None ↔ ∀ t e, Settled t (Rejected e) ∉ ps.
Proof.
  induction ps as [|p ps [IH1 IH2]].
  - split; [intros _ t e H; by apply elem_of_nil in H | done].
  - rewrite first_rejection_cons. setoid_rewrite not_elem_of_cons.
    destruct p as [t0 [a|e0]|].
    + split; [intros H t e; split; [done | by apply IH1] |].
      intros H. apply IH2. intros t e. apply H.
    + split.
      * by destruct (first_rejection ps) as [[??]|]; [destruct (_ <=? _)%nat|].
      * intros H. by destruct (H t0 e0) as [? _].
    + split; [intros H t e; split; [done | by apply IH1] |].
      intros H. apply IH2. intros t e. apply H.
Qed.

Lemma first_rejection_least {A} (ps : list (promise A)) t e t' e' :
  first_rejection ps = Some (t, e) →
  Settled t' (Rejected e') ∈ ps → t ≤ t'.
Proof.
  revert t e. induction ps as [|p ps IH]; intros t e; [done|].
  rewrite first_rejection_cons, elem_of_cons.
  destruct p as [t0 [a|e0]|].
  - intros Hf [?|Hin]; [done | eauto].
  - destruct (first_rejection ps) as [[t1 e1]|] eqn:Hps.
    + destruct (Nat.leb_spec t0 t1); intros [= <- <-] [Heq|Hin].
      * injection Heq as -> ->. lia.
      * specialize (IH _ _ eq_refl Hin). lia.
      * injection Heq as -> ->. lia.
      * eauto.
    + intros [= <- <-] [Heq|Hin]; [injection Heq as -> ->; lia|].
      rewrite first_rejection_None in Hps. by destruct (Hps t' e').
  - intros Hf [?|Hin]; [done | eauto].
Qed.

Lemma first_rejection_is_Some {A} (ps : list (promise A)) t e :
  Settled t (Rejected e) ∈ ps → is_Some (first_rejection ps).
Proof.
  intros Hin. destruct (first_rejection ps) as [x|] eqn:Hf; [by eexists|].
  rewrite first_rejection_None in Hf. by destruct (Hf t e).
Qed.

(** Among rejections in the same tick, the leftmost wins. *)
Lemma first_rejection_lookup {A} (ps : list (promise A)) t e :
  first_rejection ps = Some (t, e) ↔
  ∃ i, ps !! i = Some (Settled t (Rejected e)) ∧
       ∀ j t' e', ps !! j = Some (Settled t' (Rejected e')) →
                  t ≤ t' ∧ (j < i → t < t').
Proof.
  revert t e. induction ps as [|p ps IH]; intros t e.
  - split; [done | by intros (i & ? & _)].
  - rewrite first_rejection_cons. split.
    + destruct p as [t0 [a|e0]|].
      * intros (i & Hi & Hle)%IH. exists (S i). split; [done|].
        intros [|j] t' e' Hj; [done|]. destruct (Hle _ _ _ Hj). split; lia.
      * destruct (first_rejection ps) as [[t1 e1]|] eqn:Hps.
        -- destruct (Nat.leb_spec t0 t1); intros [= <- <-].
           ++ exists 0. split; [done|]. intros [|j] t' e' Hj.
              ** injection Hj as -> ->. lia.
              ** assert (t1 ≤ t'); [|lia].
                 eapply first_rejection_least; [done|].
                 by eapply list_elem_of_lookup_2.
           ++ destruct (proj1 (IH _ _) eq_refl) as (i & Hi & Hle).
              exists (S i). split; [done|]. intros [|j] t' e' Hj.
              ** injection Hj as -> ->. lia.
              ** destruct (Hle _ _ _ Hj). split; lia.
        -- intros [= <- <-]. exists 0. split; [done|]. intros [|j] t' e' Hj.
           ++ injection Hj as -> ->. lia.
           ++ rewrite first_rejection_None in Hps.
              destruct (Hps t' e'). by eapply list_elem_of_lookup_2.
      * intros (i & Hi & Hle)%IH. exists (S i). split; [done|].
        intros [|j] t' e' Hj; [done|]. destruct (Hle _ _ _ Hj). split; lia.
    + intros (i & Hi & Hle). destruct i as [|i].
      * injection Hi as ->.
        destruct (first_rejection ps) as [[t1 e1]|] eqn:Hps; [|done].
        apply first_rejection_elem, list_elem_of_lookup_1 in Hps as [j Hj].
        destruct (Hle (S j) _ _ Hj) as [? _].
        by destruct (Nat.leb_spec t t1); [|lia].
      * assert (first_rejection ps = Some (t, e)) as ->.
        { apply IH. exists i. split; [done|]. intros j t' e' Hj.
          destruct (Hle (S j) _ _ Hj). split; lia. }
        destruct p as [t0 [a|e0]|]; try done.
        destruct (Hle 0 t0 e0 eq_refl) as [_ ?].
        destruct (Nat.leb_spec t0 t); [lia | done].
Qed.

Lemma promise_all_rejected {A} (now : tick) (ps : list (promise A)) t e :
  promise_all now ps = Settled t (Rejected e) ↔
  first_rejection ps = Some (t, e).
Proof.
  unfold promise_all. destruct (first_rejection ps) as [[t1 e1]|].
  - split; congruence.
  - by destruct (all_fulfilled now ps) as [[??]|].
Qed.

Lemma promise_all_is_rejected {A} (now : tick) (ps : list (promise A)) p :
  p ∈ ps → is_rejected p → is_rejected (promise_all now ps).
Proof.
  intros Hin (t & e & ->).
  destruct (first_rejection_is_Some _ _ _ Hin) as [[t1 e1] Hf].
  exists t1, e1. by apply promise_all_rejected.
Qed.

Lemma settle_after_is_rejected {A} (now : tick) (p : promise A) :
  is_rejected p → is_rejected (settle_after now p).
Proof. intros (t & e & ->). by eexists _, _. Qed.

Lemma promise_all_late {A} (d now : tick) (ps : list (promise A)) :
  (∀ p, p ∈ ps → late_or_internal d p) →
  late_or_internal d (promise_all now ps).
Proof.
  intros Hps t e Hall%promise_all_rejected.
  by apply (Hps _ (first_rejection_elem _ _ _ Hall)).
Qed.

Lemma promise_all_internal {A} (d now : tick) (ps : list (promise A)) :
  (∀ p, p ∈ ps → late_or_internal d p) →
  Settled d (Rejected RuntimeException) ∈ ps →
  promise_all now ps = Settled d (Rejected RuntimeException).
Proof.
  intros Hps Hin.
  destruct (first_rejection_is_Some _ _ _ Hin) as [[t e] Hf].
  apply promise_all_rejected.
  pose proof (first_rejection_least _ _ _ _ _ Hf Hin) as Hle.
  destruct (Hps _ (first_rejection_elem _ _ _ Hf) t e eq_refl) as [Hge He].
  assert (t = d) as -> by lia. rewrite Hf. by rewrite (He eq_refl).
Qed.

Lemma settle_after_late {A} (d now : tick) (p : promise A) :
  now ≤ d → late_or_internal d p → late_or_internal (S d) (settle_after now p).
Proof.
  intros Hnow Hp t e. destruct p as [t0 [a|e0]|]; cbn; try done.
  intros [= <- <-]. destruct (Hp t0 e0 eq_refl) as [Hge He].
  split; [lia|]. intros Ht. apply He. lia.
Qed.

Lemma settle_after_internal {A} (d now : tick) (p : promise A) :
  now ≤ d → p = Settled d (Rejected RuntimeException) →
  settle_after now p = Settled (S d) (Rejected RuntimeException).
Proof. intros Hnow ->. cbn. by rewrite Nat.max_r. Qed.

(** The two shapes of the fan-out: [await Promise.all(xs.map(f))] and
    [await g(...)]. *)
Lemma await_all_late {A B} (f : A → Task B) (xs : list A) (now d : tick) :
  now ≤ d →
  (∀ x, x ∈ xs → late_or_internal d (completion (f x now))) →
  late_or_internal (S d)
    (completion
       ((ps ← map_async f xs; all ← Promise_all ps; _ ← await all; ret ()) now)).
Proof.
  intros Hnow Hxs. rewrite await_all_run. cbn.
  apply settle_after_late; [done|]. apply promise_all_late.
  intros p (x & -> & Hx)%list_elem_of_fmap. by apply Hxs.
Qed.

Lemma await_all_internal {A B} (f : A → Task B) (xs : list A) (now d : tick) x :
  now ≤ d →
  (∀ x, x ∈ xs → late_or_internal d (completion (f x now))) →
  x ∈ xs → completion (f x now) = Settled d (Rejected RuntimeException) →
  completion
    ((ps ← map_async f xs; all ← Promise_all ps; _ ← await all; ret ()) now)
  = Settled (S d) (Rejected RuntimeException).
Proof.
  intros Hnow Hxs Hx Hfx. rewrite await_all_run. cbn.
  apply settle_after_internal; [done|]. apply promise_all_internal.
  - intros p (y & -> & Hy)%list_elem_of_fmap. by apply Hxs.
  - rewrite <- Hfx. apply list_elem_of_fmap. by exists x.
Qed.

Lemma await_all_is_rejected {A B} (f : A → Task B) (xs : list A) (now : tick) x :
  x ∈ xs → is_rejected (completion (f x now)) →
  is_rejected
    (completion
       ((ps ← map_async f xs; all ← Promise_all ps; _ ← await all; ret ()) now)).
Proof.
  intros Hx Hfx. rewrite await_all_run. cbn.
  apply settle_after_is_rejected.
  apply (promise_all_is_rejected _ _ (completion (f x now))); [|done].
  apply list_elem_of_fmap. by exists x.
Qed.

Lemma await_all_trace {A B} (f : A → Task B) (xs : list A) (now : tick) :
  trace ((ps ← map_async f xs; all ← Promise_all ps; _ ← await all; ret ()) now)
  = xs ≫= λ x, trace (f x now).
Proof. by rewrite await_all_run. Qed.

(** ** One binding *)

Lemma bindHandler_run instance metatype applicationRef method path now :
  bindHandler instance metatype applicationRef method path now =
  match resolve instance with
  | None =>
      Run (Settled now (Rejected (InvalidMiddlewareException (name metatype)))) []
  | Some instance_resolve =>
      let pre := before_resolve instance instance_resolve applicationRef
                   method now in
      let bound := binding instance instance_resolve applicationRef method
                     path in
      match instance_resolve () with
      | Threw e => Run (Settled now (Rejected e)) pre
      | Returned (VPromise (Settled t (Fulfilled h))) =>
          Run (Settled (S (Nat.max now t)) (Fulfilled ()))
              (pre ++ [(S (Nat.max now t), bound (VPlain h))])
      | Returned (VPromise (Settled t (Rejected e))) =>
          Run (Settled (S (Nat.max now t)) (Rejected e)) pre
      | Returned (VPromise Pending) => Run Pending pre
      | Returned v => Run (Settled now (Fulfilled ())) (pre ++ [(now, bound v)])
      end
  end.
Proof.
  unfold bindHandler. destruct (resolve instance) as [rf|]; [|done].
  unfold bindHandlerWithProxy. task_unfold. cbn.
  destruct (rf ()) as [[v|id|[t [h|e]|]]|e]; done.
Qed.

(** A binding never completes before the tick at which it starts. *)
Lemma bindHandler_not_before instance metatype applicationRef method path now t o :
  completion (bindHandler instance metatype applicationRef method path now)
    = Settled t o → now ≤ t.
Proof.
  rewrite bindHandler_run. destruct (resolve instance) as [rf|]; cbn.
  - destruct (rf ()) as [[v|id|[t0 [h|e]|]]|e]; cbn; intros [= <- _]; lia.
  - intros [= <- _]. lia.
Qed.

(** ** The binding phase, level by level *)

Section Levels.
Variable middlewareContainer : MiddlewareContainer.
Variable applicationRef : ApplicationRef.
Variable now : tick.

Lemma route_middleware_callback_run routePath module metatype :
  route_middleware_callback middlewareContainer routePath module
    applicationRef metatype now =
  match getMiddleware middlewareContainer module !! name metatype with
  | None => Run (Settled now (Rejected RuntimeException)) []
  | Some middleware =>
      let r := bindHandler (instance middleware) metatype applicationRef ALL
                 routePath now in
      Run (match completion r with
           | Settled t o => Settled (S (Nat.max now t)) o
           | Pending => Pending
           end) (trace r)
  end.
Proof.
  unfold route_middleware_callback.
  destruct (_ !! _) as [mw|]; [|done]. by rewrite call_await_run.
Qed.

Lemma route_middleware_callback_late routePath module metatype :
  late_or_internal now
    (completion (route_middleware_callback middlewareContainer routePath
                   module applicationRef metatype now)).
Proof.
  rewrite route_middleware_callback_run. intros t e.
  destruct (_ !! _) as [mw|]; cbn.
  - destruct (completion _) as [t0 o|]; [|done]. intros [= <- ->].
    split; lia.
  - by intros [= <- <-].
Qed.

Lemma registerRouteMiddleware_late routePath config module :
  late_or_internal (S now)
    (completion (registerRouteMiddleware middlewareContainer routePath config
                   module applicationRef now)).
Proof.
  unfold registerRouteMiddleware. apply await_all_late; [done|].
  intros mt _. apply route_middleware_callback_late.
Qed.

Lemma await_call_late {A} (body : Task A) d :
  now ≤ d → late_or_internal d (completion (body now)) →
  late_or_internal (S d) (completion ((p ← call_async body; await p) now)).
Proof.
  intros Hd Hb. rewrite call_await_run. cbn.
  destruct (completion (body now)) as [t o|]; [|done].
  intros t' e [= <- ->]. destruct (Hb t e eq_refl) as [Hge He].
  split; [lia|]. intros Ht. apply He. lia.
Qed.

Lemma await_call_internal {A} (body : Task A) d :
  now ≤ d → completion (body now) = Settled d (Rejected RuntimeException) →
  completion ((p ← call_async body; await p) now)
    = Settled (S d) (Rejected RuntimeException).
Proof.
  intros Hd Hb. rewrite call_await_run, Hb. cbn. by rewrite Nat.max_r.
Qed.

Lemma await_call_is_rejected {A} (body : Task A) :
  is_rejected (completion (body now)) →
  is_rejected (completion ((p ← call_async body; await p) now)).
Proof. intros (t & e & Hb). rewrite call_await_run, Hb. by eexists _, _. Qed.

Lemma route_callback_late config module routePath :
  late_or_internal (2 + now)
    (completion (route_callback middlewareContainer config module
                   applicationRef routePath now)).
Proof.
  apply await_call_late; [lia|]. apply registerRouteMiddleware_late.
Qed.

Lemma registerMiddlewareConfig_late config module :
  late_or_internal (3 + now)
    (completion (registerMiddlewareConfig middlewareContainer config module
                   applicationRef now)).
Proof.
  unfold registerMiddlewareConfig. apply await_all_late; [lia|].
  intros routePath _. apply route_callback_late.
Qed.

Lemma config_callback_late module config :
  late_or_internal (4 + now)
    (completion (config_callback middlewareContainer module applicationRef
                   config now)).
Proof.
  apply await_call_late; [lia|]. apply registerMiddlewareConfig_late.
Qed.

Lemma module_callback_late entry :
  late_or_internal (5 + now)
    (completion (module_callback middlewareContainer applicationRef entry now)).
Proof.
  destruct entry as [module moduleConfigs]. unfold module_callback.
  apply await_all_late; [lia|]. intros config _. apply config_callback_late.
Qed.

Lemma registerMiddleware_internal module config routePath metatype :
  bound_tuple middlewareContainer module config routePath metatype →
  getMiddleware middlewareContainer module !! name metatype = None →
  completion (registerMiddleware middlewareContainer applicationRef now)
    = Settled (6 + now) (Rejected RuntimeException).
Proof.
  intros ((moduleConfigs & Hmod & Hcfg) & Hroute & Hmt) Hnone.
  unfold registerMiddleware.
  eapply (await_all_internal _ _ _ (5 + now)); [lia | | exact Hmod |].
  { intros entry _. apply module_callback_late. }
  unfold module_callback, registerAllConfigs.
  eapply (await_all_internal _ _ _ (4 + now)); [lia | | exact Hcfg |].
  { intros c _. apply config_callback_late. }
  apply (await_call_internal _ (3 + now)); [lia|].
  unfold registerMiddlewareConfig.
  eapply (await_all_internal _ _ _ (2 + now)); [lia | | exact Hroute |].
  { intros r _. apply route_callback_late. }
  apply (await_call_internal _ (1 + now)); [lia|].
  unfold registerRouteMiddleware.
  eapply (await_all_internal _ _ _ now); [lia | | exact Hmt |].
  { intros m _. apply route_middleware_callback_late. }
  by rewrite route_middleware_callback_run, Hnone.
Qed.

Lemma registerMiddleware_is_rejected module config routePath metatype :
  bound_tuple middlewareContainer module config routePath metatype →
  is_rejected (completion (route_middleware_callback middlewareContainer
                             routePath module applicationRef metatype now)) →
  is_rejected
    (completion (registerMiddleware middlewareContainer applicationRef now)).
Proof.
  intros ((moduleConfigs & Hmod & Hcfg) & Hroute & Hmt) Hrej.
  unfold registerMiddleware.
  eapply await_all_is_rejected; [exact Hmod|].
  unfold module_callback, registerAllConfigs.
  eapply await_all_is_rejected; [exact Hcfg|].
  apply await_call_is_rejected. unfold registerMiddlewareConfig.
  eapply await_all_is_rejected; [exact Hroute|].
  apply await_call_is_rejected. unfold registerRouteMiddleware.
  eapply await_all_is_rejected; [exact Hmt|]. done.
Qed.
End Levels.

(** ** Which rejection and which router calls a phase ends with *)

Lemma list_bind_assoc {A B C} (f : A → list B) (g : B → list C) (xs : list A) :
  (xs ≫= f) ≫= g = xs ≫= λ x, f x ≫= g.
Proof.
  induction xs as [|x xs IH]; [done|].
  by rewrite !bind_cons, bind_app, IH.
Qed.

Lemma filter_bind {A B} (P : B → Prop) `{!∀ y, Decision (P y)}
    (f : A → list B) (xs : list A) :
  filter P (xs ≫= f) = xs ≫= λ x, filter P (f x).
Proof.
  induction xs as [|x xs IH]; [done|].
  by rewrite !bind_cons, filter_app, IH.
Qed.

Lemma settle_after_rejected_inv {A} (now : tick) (p : promise A) t e :
  settle_after now p = Settled t (Rejected e) →
  ∃ t0, p = Settled t0 (Rejected e).
Proof. destruct p as [t0 [a|e0]|]; cbn; intros [= <- <-]; by eexists. Qed.

Lemma await_all_rejected_inv {A B} (f : A → Task B) (xs : list A) now t e :
  completion ((ps ← map_async f xs; all ← Promise_all ps; _ ← await all; ret ())
                now) = Settled t (Rejected e) →
  ∃ x t0, x ∈ xs ∧ completion (f x now) = Settled t0 (Rejected e).
Proof.
  rewrite await_all_run. cbn.
  intros [t0 Hall%promise_all_rejected]%settle_after_rejected_inv.
  apply first_rejection_elem, list_elem_of_fmap in Hall as (x & Hx & Hin).
  by exists x, t0.
Qed.

Lemma await_call_rejected_inv {A} (body : Task A) now t e :
  completion ((p ← call_async body; await p) now) = Settled t (Rejected e) →
  ∃ t0, completion (body now) = Settled t0 (Rejected e).
Proof.
  rewrite call_await_run. cbn.
  destruct (completion (body now)) as [t0 o|]; [|done].
  intros [= <- ->]. by eexists.
Qed.

Section Phase.
Variable middlewareContainer : MiddlewareContainer.
Variable applicationRef : ApplicationRef.
Variable now : tick.

Lemma elem_of_bound_tuples module config routePath metatype :
  (module, config, routePath, metatype) ∈ bound_tuples middlewareContainer ↔
  bound_tuple middlewareContainer module config routePath metatype.
Proof.
  unfold bound_tuples, bound_tuple. rewrite list_elem_of_bind. split.
  - intros ([m cs] & (c & (r & (mt & Heq%list_elem_of_singleton & Hmt)
       %list_elem_of_bind & Hr)%list_elem_of_bind & Hc)%list_elem_of_bind & He).
    cbn in *. injection Heq as -> -> -> ->. eauto 10.
  - intros ((cs & Hm & Hc) & Hr & Hmt). exists (module, cs). split; [|done].
    apply list_elem_of_bind. exists config. split; [|done].
    apply list_elem_of_bind. exists routePath. split; [|done].
    apply list_elem_of_bind. exists metatype. split; [|done].
    by apply list_elem_of_singleton.
Qed.

Lemma registerMiddleware_trace :
  trace (registerMiddleware middlewareContainer applicationRef now)
    = bound_tuples middlewareContainer ≫= λ tuple,
        trace (bind_tuple middlewareContainer applicationRef now tuple).
Proof.
  unfold registerMiddleware, bound_tuples. rewrite await_all_trace.
  rewrite list_bind_assoc. apply list_bind_ext; [|done].
  intros [module moduleConfigs]. unfold module_callback, registerAllConfigs.
  rewrite await_all_trace, list_bind_assoc. apply list_bind_ext; [|done].
  intros config. unfold config_callback. rewrite call_await_run. cbn.
  unfold registerMiddlewareConfig.
  rewrite await_all_trace, list_bind_assoc. apply list_bind_ext; [|done].
  intros routePath. unfold route_callback. rewrite call_await_run. cbn.
  unfold registerRouteMiddleware.
  rewrite await_all_trace, list_bind_assoc. apply list_bind_ext; [|done].
  intros metatype. by rewrite bind_singleton.
Qed.

Lemma registerMiddleware_rejected_inv t e :
  completion (registerMiddleware middlewareContainer applicationRef now)
    = Settled t (Rejected e) →
  ∃ tuple t0,
    tuple ∈ bound_tuples middlewareContainer
    ∧ completion (bind_tuple middlewareContainer applicationRef now tuple)
      = Settled t0 (Rejected e).
Proof.
  unfold registerMiddleware.
  intros ([module cs] & t1 & Hm & H)%await_all_rejected_inv.
  unfold module_callback, registerAllConfigs in H.
  apply await_all_rejected_inv in H as (config & t2 & Hc & H).
  apply await_call_rejected_inv in H as (t3 & H).
  apply await_all_rejected_inv in H as (routePath & t4 & Hr & H).
  apply await_call_rejected_inv in H as (t5 & H).
  apply await_all_rejected_inv in H as (metatype & t6 & Hmt & H).
  exists (module, config, routePath, metatype), t6. split; [|done].
  apply elem_of_bound_tuples. unfold bound_tuple. eauto 10.
Qed.
End Phase.

(** ** The configuration phase *)

Section Configuration.
Variable routesMapper : RoutesMapper.
Variable resolveInstances : Injector.Module_ → string → promise unit.

Lemma loadConfiguration_outcome c instance module :
  (loadConfiguration routesMapper c instance module).2 =
  match configure_throws routesMapper instance with
  | Some e => Threw e
  | None => Returned ()
  end.
Proof.
  unfold loadConfiguration, configure_throws.
  destruct (configure instance) as [hook|]; [|done].
  by destruct (hook _) as [b [v|e]].
Qed.

Lemma resolve_callback_run c entry now :
  (resolve_callback routesMapper resolveInstances c entry).2 now =
  Run (module_settles routesMapper resolveInstances now entry) [].
Proof.
  destruct entry as [name module]. unfold resolve_callback, module_settles.
  pose proof (loadConfiguration_outcome c (Injector.instance module) name) as H.
  destruct (loadConfiguration _ _ _ _) as [c' [[]|e]]; cbn in *;
    destruct (configure_throws _ _); try done.
  - unfold await. by destruct (resolveInstances _ _).
  - by injection H as ->.
Qed.

Lemma map_async_from_run c xs now :
  (map_async_from (resolve_callback routesMapper resolveInstances) c xs).2 now
  = Run (Settled now
           (Fulfilled (module_settles routesMapper resolveInstances now <$> xs)))
        [].
Proof.
  revert c. induction xs as [|x xs IH]; intros c; [done|].
  cbn [map_async_from].
  pose proof (resolve_callback_run c x now) as Hx.
  destruct (resolve_callback _ _ c x) as [c1 body].
  specialize (IH c1).
  destruct (map_async_from _ c1 xs) as [c2 rest]. cbn in *.
  task_unfold. cbn. by rewrite Hx, IH.
Qed.

Lemma resolveMiddleware_run c modules now :
  (resolveMiddleware routesMapper resolveInstances c modules).2 now =
  Run (settle_after now
         (promise_all now
            (module_settles routesMapper resolveInstances now <$> modules)))
      [].
Proof.
  unfold resolveMiddleware.
  pose proof (map_async_from_run c modules now) as H.
  destruct (map_async_from _ c modules) as [c' callbacks]. cbn in *.
  unfold mbind at 1, Task_bind at 1, bind at 1. rewrite H. cbn.
  task_unfold. cbn. by destruct (promise_all _ _) as [t [a|e]|].
Qed.

Lemma register_run c container config now :
  (register routesMapper resolveInstances c container config).2 now =
  Run (match settle_after now
               (promise_all now
                  (module_settles routesMapper resolveInstances now
                     <$> modules container)) with
       | Settled t o => Settled (S (Nat.max now t)) o
       | Pending => Pending
       end) [].
Proof.
  unfold register, getModules.
  pose proof (resolveMiddleware_run c (modules container) now) as H.
  destruct (resolveMiddleware _ _ c _) as [c' body]. cbn in *.
  by rewrite call_await_run, H.
Qed.

Lemma module_settles_rejected now entry t e :
  module_settles routesMapper resolveInstances now entry
    = Settled t (Rejected e) ↔
  module_failure routesMapper resolveInstances now entry = Some (t, e).
Proof.
  unfold module_settles, module_failure.
  destruct (configure_throws _ _) as [e0|]; [split; congruence|].
  unfold await. destruct (resolveInstances _ _) as [t0 [[]|e0]|];
    unfold completion; [split; congruence | | split; congruence].
  split; intros [= <- <-]; reflexivity.
Qed.

Lemma module_failure_not_before now entry t e :
  module_failure routesMapper resolveInstances now entry = Some (t, e) →
  now ≤ t.
Proof.
  unfold module_failure. destruct (configure_throws _ _) as [e0|].
  - intros [= <- _]. lia.
  - destruct (resolveInstances _ _) as [t0 [[]|e0]|]; try done.
    intros [= <- _]. lia.
Qed.
End Configuration.

Lemma lookup_configs_append_eq configList module sets :
  lookup_configs module (append_configs configList module sets)
    = lookup_configs module sets ++ configList.
Proof.
  induction sets as [|[m cs] rest IH]; cbn.
  - by rewrite decide_True.
  - destruct (decide (m = module)) as [->|Hne]; cbn.
    + by rewrite decide_True.
    + by rewrite decide_False.
Qed.

Lemma lookup_configs_append_ne configList module m sets :
  m ≠ module →
  lookup_configs m (append_configs configList module sets)
    = lookup_configs m sets.
Proof.
  intros Hne. induction sets as [|[m' cs] rest IH]; cbn.
  - by rewrite decide_False.
  - destruct (decide (m' = module)) as [->|Hne']; cbn.
    + by rewrite !decide_False.
    + by destruct (decide (m' = m)).
Qed.

Lemma length_bind_filter {A B} (P : A → Prop) `{!∀ x, Decision (P x)}
    (g : A → list B) (xs : list A) :
  (∀ x, length (g x) = if decide (P x) then 1 else 0) →
  length (xs ≫= g) = length (filter P xs).
Proof.
  intros Hg. induction xs as [|x xs IH]; [done|].
  rewrite bind_cons, length_app, Hg, IH, filter_cons.
  by destruct (decide (P x)).
Qed.

(** A binding calls the router once if it is fulfilled and not at all
    otherwise. *)
Lemma bind_tuple_registrations middlewareContainer applicationRef now tuple :
  length (registrations (bind_tuple middlewareContainer applicationRef now tuple))
  = if decide (is_fulfilled
                 (completion
                    (bind_tuple middlewareContainer applicationRef now tuple))
               = true)
    then 1 else 0.
Proof.
  destruct tuple as [[[module config] routePath] metatype]. cbn.
  rewrite route_middleware_callback_run.
  destruct (_ !! _) as [mw|]; cbn; [|done].
  rewrite bindHandler_run. destruct (resolve (instance mw)) as [rf|]; cbn;
    [|done].
  by destruct (rf ()) as [[v|id|[t0 [h|e]|]]|e].
Qed.

(** ** Scenarios *)

Section Scenarios.
Import Scenario.
Local Open Scope string_scope.

(** One module applies [Logger] to "/users": one registration, whose proxy
    invokes the resolved handler. *)
Example one_module_one_registration :
  let instance_resolve := resolve_to (VPlain f) in
  let logger := middleware_of instance_resolve in
  let phase := registerMiddleware (container_with users logger) 0 0 in
  completion phase = Settled 7 (Fulfilled ())
  ∧ registrations phase
    = [(0, binding logger instance_resolve 0 ALL "/users" (VPlain f))]
  ∧ invoke_proxy
      (createProxy (VPlain f) (routerExceptionFilter_create logger instance_resolve))
      args
    = ([TargetInvoked (VPlain f) args], Completed).
Proof. repeat split. Qed.

(** [Logger] without [resolve]: the phase is rejected, naming "Logger". *)
Example middleware_without_resolve_rejects_phase :
  completion (registerMiddleware (container_with users without_resolve) 0 0)
  = Settled 7 (Rejected (InvalidMiddlewareException "Logger")).
Proof. reflexivity. Qed.

(** Two modules configure the same type name for different routes: each
    registration holds the instance of its own module. *)
Example two_modules_keep_their_instances :
  let first := middleware_of (resolve_to (VPlain f)) in
  let second := middleware_of (resolve_to (VPlain failing)) in
  bound_handlers (registerMiddleware (two_modules first second) 0 0)
  = [(routerMethodFactory_get 0 ALL, "/users", VPlain f);
     (routerMethodFactory_get 0 ALL, "/orders", VPlain failing)].
Proof. reflexivity. Qed.

(** A promise settling at tick 5: the handler is bound at tick 6. *)
Example awaited_handler_is_bound_after_settlement :
  let instance_resolve := resolve_to (VPromise (Settled 5 (Fulfilled f))) in
  let logger := middleware_of instance_resolve in
  let phase := registerMiddleware (container_with users logger) 0 0 in
  completion phase = Settled 13 (Fulfilled ())
  ∧ registrations phase
    = [(6, binding logger instance_resolve 0 ALL "/users" (VPlain f))].
Proof. repeat split. Qed.

(** The first failure in time wins, not the first in the list: the resolver
    fails for "M" one tick after [configure] of "N" has thrown. *)
Example register_rejects_with_earliest_failure :
  let container :=
    {| modules := [("M", module_without_configure);
                   ("N", module_with (Threw (UserError 3)))];
       applicationRef := 0 |} in
  completion ((register 0 failing_for_M empty_container container 0).2 0)
  = Settled 2 (Rejected (UserError 3)).
Proof. reflexivity. Qed.

(** A handler whose returned awaitable is rejected: [handle] is called. *)
Example rejecting_handler_is_handled :
  let handler :=
    routerExceptionFilter_create (middleware_of (resolve_to (VPlain rejecting)))
      (resolve_to (VPlain rejecting)) in
  invoke_proxy (createProxy (VPlain rejecting) handler) args
  = ([TargetInvoked (VPlain rejecting) args;
      ExceptionHandled handler (UserError 2) args], Completed).
Proof. reflexivity. Qed.

End Scenarios.

(** * The claims *)

(** C8.  For a module whose instance has no [configure] hook,
    [loadConfiguration] returns normally and leaves the middleware container
    as it was: no configuration is appended and nothing is thrown. *)
Theorem loadConfiguration_without_configure
    (routesMapper : RoutesMapper) (middlewareContainer : MiddlewareContainer)
    (instance : NestModule) (module : string) :
  configure instance = None →
  loadConfiguration routesMapper middlewareContainer instance module
    = (middlewareContainer, Returned ()).
Proof. unfold loadConfiguration. by intros ->. Qed.

Lemma loadConfiguration_without_configure_witness :
  loadConfiguration 0 (Scenario.container_with Scenario.users Scenario.without_resolve)
    (Injector.instance Scenario.module_without_configure) "M"
  = (Scenario.container_with Scenario.users Scenario.without_resolve, Returned ()).
Proof.
  apply (loadConfiguration_without_configure 0
           (Scenario.container_with Scenario.users Scenario.without_resolve)
           (Injector.instance Scenario.module_without_configure) "M").
  reflexivity.
Defined.

(** C1, as stated, fails: a hook that applies a middleware and returns a
    value that is not a builder still has its configuration appended. *)
Lemma loadConfiguration_foreign_return_appends :
  configure (Injector.instance (Scenario.module_with (Returned (HOther 7))))
    = Some (Scenario.applying (Returned (HOther 7)))
  ∧ (Scenario.applying (Returned (HOther 7)) (new_MiddlewareBuilder 0)).2
    = Returned (HOther 7)
  ∧ instanceof_MiddlewareBuilder (HOther 7) = false
  ∧ configs_of "M"
      (loadConfiguration 0 Scenario.empty_container
         (Injector.instance (Scenario.module_with (Returned (HOther 7)))) "M").1
    = [Scenario.users]
  ∧ (loadConfiguration 0 Scenario.empty_container
       (Injector.instance (Scenario.module_with (Returned (HOther 7)))) "M").1
    ≠ Scenario.empty_container.
Proof.
  repeat split. intros H. apply (f_equal configurationSets) in H. discriminate H.
Qed.

(** C1, amended.  For a module whose instance has a [configure] hook,
    [loadConfiguration] constructs a builder and invokes [configure(builder)];
    whatever value the hook returns, a builder or a foreign value, the
    configurations built by the builder are appended to the registry under
    that module's name, the other modules keep theirs, and no error is
    raised. *)
Theorem loadConfiguration_appends_whatever_is_returned
    (routesMapper : RoutesMapper) (middlewareContainer : MiddlewareContainer)
    (instance : NestModule) (module : string)
    (configure_hook : MiddlewareBuilder → MiddlewareBuilder * call_outcome hook_value)
    (built : MiddlewareBuilder) (returned : hook_value) :
  configure instance = Some configure_hook →
  configure_hook (new_MiddlewareBuilder routesMapper) = (built, Returned returned) →
  let after :=
    loadConfiguration routesMapper middlewareContainer instance module in
  after = (addConfig (build built) module middlewareContainer, Returned ())
  ∧ configs_of module after.1
    = configs_of module middlewareContainer ++ build built
  ∧ (∀ m, m ≠ module → configs_of m after.1 = configs_of m middlewareContainer)
  ∧ wrappers after.1 = wrappers middlewareContainer.
Proof.
  intros Hc Hh after. subst after. unfold loadConfiguration.
  rewrite Hc, Hh. cbn. split; [done|]. unfold configs_of, getConfigs. cbn.
  split; [apply lookup_configs_append_eq|].
  split; [|done]. intros m Hm. by apply lookup_configs_append_ne.
Qed.

Lemma loadConfiguration_appends_whatever_is_returned_witness :
  let after :=
    loadConfiguration 0 Scenario.empty_container
      (Injector.instance (Scenario.module_with (Returned HUndefined))) "M" in
  after = (addConfig [Scenario.users] "M" Scenario.empty_container, Returned ())
  ∧ configs_of "M" after.1 = [] ++ [Scenario.users]
  ∧ (∀ m, m ≠ "M" → configs_of m after.1 = configs_of m Scenario.empty_container)
  ∧ wrappers after.1 = wrappers Scenario.empty_container.
Proof.
  apply (loadConfiguration_appends_whatever_is_returned 0
           Scenario.empty_container
           (Injector.instance (Scenario.module_with (Returned HUndefined))) "M"
           (Scenario.applying (Returned HUndefined))
           {| builder_routesMapper := 0;
              middlewareCollection := [Scenario.users] |}
           HUndefined); reflexivity.
Defined.

(** C2, as stated, fails twice.  A hook whose returned awaitable is rejected
    does not make [register] reject; and [register] fulfils for a module that
    applies a middleware although the instance resolved for it has no
    [resolve]: the invalid-middleware error is raised afterwards, by
    [registerMiddleware] on the configurations [register] has collected. *)
Lemma register_fulfils_despite_later_errors :
  let asynchronous := HPromise (Settled 1 (Rejected (UserError 9))) in
  let started :=
    register 0 (Scenario.resolved_at 0) Scenario.empty_container
      (Scenario.container_of (Scenario.module_with (Returned asynchronous))) 0 in
  completion (started.2 0) = Settled 3 (Fulfilled ())
  ∧ getConfigs started.1
    = getConfigs
        (Scenario.container_with Scenario.users Scenario.without_resolve)
  ∧ completion
      (registerMiddleware
         (Scenario.container_with Scenario.users Scenario.without_resolve) 0 3)
    = Settled 10 (Rejected (InvalidMiddlewareException "Logger")).
Proof. repeat split. Qed.

(** C2, amended.  [register] rejects with the first fatal error encountered,
    unchanged, where the fatal errors are an error thrown synchronously by a
    module's [configure] hook and a rejection of [resolveInstances] for a
    module: it rejects two ticks after the first module failure, with that
    failure's error, the leftmost module winning among failures in the same
    tick.  What [configure] returns, a rejected awaitable included, plays no
    part, and [register] binds nothing, so it raises no invalid-middleware or
    unresolved-middleware error of its own. *)
Theorem register_rejects_with_first_failure
    (routesMapper : RoutesMapper)
    (resolveInstances : Injector.Module_ → string → promise unit)
    (middlewareContainer : MiddlewareContainer) (container : NestContainer)
    (config : ApplicationConfig) (now : tick) :
  let started :=
    (register routesMapper resolveInstances middlewareContainer container
       config).2 now in
  let failure := module_failure routesMapper resolveInstances now in
  (∀ t e,
     completion started = Settled t (Rejected e) ↔
     ∃ i entry t0,
       getModules container !! i = Some entry
       ∧ failure entry = Some (t0, e)
       ∧ t = 2 + t0
       ∧ ∀ j entry' t' e',
           getModules container !! j = Some entry' →
           failure entry' = Some (t', e') →
           t0 ≤ t' ∧ (j < i → t0 < t'))
  ∧ trace started = [].
Proof.
  intros started failure. subst started. rewrite register_run. cbn.
  split; [|done]. intros t e. unfold getModules.
  set (ps := module_settles routesMapper resolveInstances now <$> modules container).
  assert (∀ t0 e0,
    promise_all now ps = Settled t0 (Rejected e0) ↔
    ∃ i entry, modules container !! i = Some entry
      ∧ failure entry = Some (t0, e0)
      ∧ ∀ j entry' t' e', modules container !! j = Some entry' →
          failure entry' = Some (t', e') → t0 ≤ t' ∧ (j < i → t0 < t')) as Hall.
  { intros t0 e0. rewrite promise_all_rejected, first_rejection_lookup.
    subst ps. split.
    - intros (i & Hi & Hle). rewrite list_lookup_fmap in Hi.
      destruct (modules container !! i) as [entry|] eqn:Hentry; [|done].
      injection Hi as Hi%module_settles_rejected.
      exists i, entry. split; [done|]. split; [done|].
      intros j entry' t' e' Hj Hf'. apply (Hle j t' e').
      rewrite list_lookup_fmap, Hj. cbn. f_equal.
      by apply module_settles_rejected.
    - intros (i & entry & Hi & Hf & Hle). exists i. split.
      + rewrite list_lookup_fmap, Hi. cbn. f_equal.
        by apply module_settles_rejected.
      + intros j t' e' Hj. rewrite list_lookup_fmap in Hj.
        destruct (modules container !! j) as [entry'|] eqn:Hentry'; [|done].
        injection Hj as Hj%module_settles_rejected. by eapply Hle. }
  split.
  - destruct (promise_all now ps) as [t1 [a|e1]|] eqn:Hp; cbn; try done.
    intros [= <- <-].
    destruct (proj1 (Hall t1 e1) eq_refl) as (i & entry & Hi & Hf & Hle).
    exists i, entry, t1. repeat split; try done; [|by eapply Hle..].
    apply module_failure_not_before in Hf. lia.
  - intros (i & entry & t0 & Hi & Hf & -> & Hle).
    assert (promise_all now ps = Settled t0 (Rejected e)) as ->.
    { apply Hall. by exists i, entry. }
    apply module_failure_not_before in Hf. cbn. f_equal. lia.
Qed.

Lemma register_rejects_with_first_failure_witness :
  completion
    ((register 0 (Scenario.resolved_at 0) Scenario.empty_container
        (Scenario.container_of (Scenario.module_with (Threw (UserError 3))))
        0).2 0)
  = Settled 2 (Rejected (UserError 3)).
Proof.
  apply (proj1 (register_rejects_with_first_failure 0 (Scenario.resolved_at 0)
                  Scenario.empty_container
                  (Scenario.container_of
                     (Scenario.module_with (Threw (UserError 3)))) 0 0)
           2 (UserError 3)).
  exists 0, ("M", Scenario.module_with (Threw (UserError 3))), 0.
  repeat split; try reflexivity; lia.
Defined.

(** C5.  For a middleware instance whose [resolve] member is undefined,
    [bindHandler] fails with an invalid-middleware error that names the
    metatype, and nothing has happened by then: no router registration is
    made for that binding. *)
Theorem bindHandler_without_resolve
    (instance : NestMiddleware) (metatype : Type_)
    (applicationRef : ApplicationRef) (method : RequestMethod) (path : string)
    (now : tick) :
  resolve instance = None →
  bindHandler instance metatype applicationRef method path now
    = Run (Settled now (Rejected (InvalidMiddlewareException (name metatype)))) []
  ∧ registrations
      (bindHandler instance metatype applicationRef method path now) = [].
Proof. intros H. rewrite bindHandler_run, H. by split. Qed.

Lemma bindHandler_without_resolve_witness :
  bindHandler Scenario.without_resolve Scenario.Logger 0 ALL "/users" 0
    = Run (Settled 0 (Rejected (InvalidMiddlewareException "Logger"))) []
  ∧ registrations
      (bindHandler Scenario.without_resolve Scenario.Logger 0 ALL "/users" 0)
    = [].
Proof.
  apply (bindHandler_without_resolve Scenario.without_resolve Scenario.Logger
           0 ALL "/users" 0).
  reflexivity.
Defined.

(** C10.  [bindHandler] tells a synchronous factory from an asynchronous one
    by the [instanceof Promise] test alone: every value [resolve()] returns
    that is not a native promise, a thenable included, is bound as the
    handler in the tick of the call, without being awaited; only a native
    promise is awaited, so that nothing is bound in that tick. *)
Theorem bindHandler_binds_non_promise_directly
    (instance : NestMiddleware) (instance_resolve : unit → call_outcome value)
    (metatype : Type_) (applicationRef : ApplicationRef)
    (method : RequestMethod) (path : string) (now : tick) (returned : value) :
  resolve instance = Some instance_resolve →
  instance_resolve () = Returned returned →
  let bound := bindHandler instance metatype applicationRef method path now in
  (instanceof_Promise returned = false →
     bound =
     Run (Settled now (Fulfilled ()))
         (before_resolve instance instance_resolve applicationRef method now
          ++ [(now, binding instance instance_resolve applicationRef method
                      path returned)]))
  ∧ (instanceof_Promise returned = true →
       ∀ t ev, (t, ev) ∈ registrations bound → now < t).
Proof.
  intros Hr Hv bound. subst bound. rewrite bindHandler_run, Hr. cbn.
  rewrite Hv. split.
  - by destruct returned as [v|id|p].
  - destruct returned as [v|id|[t0 [h|e]|]]; try done; intros _ t ev;
      unfold registrations; cbn; rewrite ?filter_nil;
      try (by intros ?%elem_of_nil).
    unfold filter; cbn. intros [= -> _]%list_elem_of_singleton. lia.
Qed.

Lemma bindHandler_binds_non_promise_directly_witness :
  let instance_resolve := Scenario.resolve_to Scenario.thenable in
  let instance := Scenario.middleware_of instance_resolve in
  bindHandler instance Scenario.Logger 0 ALL "/users" 2
  = Run (Settled 2 (Fulfilled ()))
        (before_resolve instance instance_resolve 0 ALL 2
         ++ [(2, binding instance instance_resolve 0 ALL "/users"
                   Scenario.thenable)]).
Proof.
  apply (proj1 (bindHandler_binds_non_promise_directly
                  (Scenario.middleware_of
                     (Scenario.resolve_to Scenario.thenable))
                  (Scenario.resolve_to Scenario.thenable) Scenario.Logger 0 ALL
                  "/users" 2 Scenario.thenable eq_refl eq_refl)).
  reflexivity.
Defined.

(** C3, as stated, fails for an awaitable that is not a native promise: a
    thenable that would deliver the handler at tick 5 is handed to the proxy
    as it is, in the tick of the call, so the router does not receive the
    handler that a direct return binds, and the registration does not wait
    for the awaitable to settle. *)
Lemma bindHandler_thenable_is_bound_unawaited :
  let direct := Scenario.middleware_of (Scenario.resolve_to (VPlain Scenario.f)) in
  let resolve_awaited := Scenario.resolve_to Scenario.thenable in
  let awaited := Scenario.middleware_of resolve_awaited in
  let immediate := bindHandler direct Scenario.Logger 0 ALL "/users" 2 in
  let deferred := bindHandler awaited Scenario.Logger 0 ALL "/users" 2 in
  Scenario.thenable = VThenable (Settled 5 (Fulfilled Scenario.f))
  ∧ bound_handlers immediate
    = [(routerMethodFactory_get 0 ALL, "/users", VPlain Scenario.f)]
  ∧ bound_handlers deferred
    = [(routerMethodFactory_get 0 ALL, "/users", Scenario.thenable)]
  ∧ bound_handlers deferred ≠ bound_handlers immediate
  ∧ registrations deferred
    = [(2, binding awaited resolve_awaited 0 ALL "/users" Scenario.thenable)]
  ∧ 2 < 5.
Proof.
  repeat split; [|lia]. intros H. discriminate H.
Qed.

(** C3, amended.  Whether [resolve()] returns a handler [h] directly or a
    native promise of it, [bindHandler] registers the same handler with the
    router, on the same router function and path.  With a native promise,
    the registration is made only once the promise is fulfilled, in a later
    tick than its settlement, and what the proxy receives is the value the
    promise was fulfilled with, never the promise. *)
Theorem bindHandler_same_handler_direct_or_awaited
    (direct awaited : NestMiddleware)
    (resolve_direct resolve_awaited : unit → call_outcome value)
    (metatype : Type_) (applicationRef : ApplicationRef)
    (method : RequestMethod) (path : string) (now : tick)
    (h : plain) (p : promise plain) :
  resolve direct = Some resolve_direct →
  resolve_direct () = Returned (VPlain h) →
  resolve awaited = Some resolve_awaited →
  resolve_awaited () = Returned (VPromise p) →
  let immediate := bindHandler direct metatype applicationRef method path now in
  let deferred := bindHandler awaited metatype applicationRef method path now in
  bound_handlers immediate
    = [(routerMethodFactory_get applicationRef method, path, VPlain h)]
  ∧ (∀ t, p = Settled t (Fulfilled h) →
       bound_handlers deferred = bound_handlers immediate
       ∧ registrations deferred
         = [(S (Nat.max now t),
             binding awaited resolve_awaited applicationRef method path
               (VPlain h))]
       ∧ completion deferred = Settled (S (Nat.max now t)) (Fulfilled ())
       ∧ t < S (Nat.max now t))
  ∧ (∀ t ev, (t, ev) ∈ registrations deferred →
       ∃ t0 h0, p = Settled t0 (Fulfilled h0) ∧ t0 < t
                ∧ ev = binding awaited resolve_awaited applicationRef method
                         path (VPlain h0)
                ∧ instanceof_Promise (VPlain h0) = false).
Proof.
  intros Hd Hdv Ha Hav immediate deferred. subst immediate deferred.
  rewrite !bindHandler_run, Hd, Ha. cbn. rewrite Hdv, Hav.
  split; [done|]. split.
  - intros t ->. repeat split. lia.
  - intros t ev. destruct p as [t0 [h0|e]|]; unfold registrations; cbn;
      rewrite ?filter_nil; try (by intros ?%elem_of_nil).
    unfold filter; cbn. intros [= -> ->]%list_elem_of_singleton.
    exists t0, h0. repeat split. lia.
Qed.

Lemma bindHandler_same_handler_direct_or_awaited_witness :
  let direct := Scenario.middleware_of (Scenario.resolve_to (VPlain Scenario.f)) in
  let resolve_awaited :=
    Scenario.resolve_to (VPromise (Settled 5 (Fulfilled Scenario.f))) in
  let awaited := Scenario.middleware_of resolve_awaited in
  let immediate := bindHandler direct Scenario.Logger 0 ALL "/users" 1 in
  let deferred := bindHandler awaited Scenario.Logger 0 ALL "/users" 1 in
  bound_handlers immediate
    = [(routerMethodFactory_get 0 ALL, "/users", VPlain Scenario.f)]
  ∧ bound_handlers deferred = bound_handlers immediate
  ∧ registrations deferred
    = [(6, binding awaited resolve_awaited 0 ALL "/users" (VPlain Scenario.f))]
  ∧ completion deferred = Settled 6 (Fulfilled ())
  ∧ 5 < 6.
Proof.
  destruct (bindHandler_same_handler_direct_or_awaited
              (Scenario.middleware_of (Scenario.resolve_to (VPlain Scenario.f)))
              (Scenario.middleware_of
                 (Scenario.resolve_to
                    (VPromise (Settled 5 (Fulfilled Scenario.f)))))
              (Scenario.resolve_to (VPlain Scenario.f))
              (Scenario.resolve_to (VPromise (Settled 5 (Fulfilled Scenario.f))))
              Scenario.Logger 0 ALL "/users" 1 Scenario.f
              (Settled 5 (Fulfilled Scenario.f))
              eq_refl eq_refl eq_refl eq_refl) as (Hdirect & Hawaited & _).
  split; [exact Hdirect | exact (Hawaited 5 eq_refl)].
Defined.

(** C9.  [bindHandler] builds the exception handler and looks up the router
    function before it invokes [instance.resolve()].  If [resolve()] throws
    at bind time, [bindHandler] is rejected with that error in the same tick
    and its trace ends with the invocation: the error is not handed to the
    exception handler and no router registration is made.  The binding phase
    is then rejected too, with that error unless another binding is rejected
    with a different one. *)
Theorem bindHandler_resolve_throwing
    (middlewareContainer : MiddlewareContainer) (module : string)
    (config : MiddlewareConfiguration) (routePath : string)
    (metatype : Type_) (middleware : MiddlewareWrapper)
    (instance_resolve : unit → call_outcome value)
    (applicationRef : ApplicationRef) (now : tick) :
  (module, config, routePath, metatype) ∈ bound_tuples middlewareContainer →
  getMiddleware middlewareContainer module !! name metatype = Some middleware →
  resolve (instance middleware) = Some instance_resolve →
  let bound :=
    bindHandler (instance middleware) metatype applicationRef ALL routePath now in
  let phase := registerMiddleware middlewareContainer applicationRef now in
  (∃ rest,
     trace bound
     = before_resolve (instance middleware) instance_resolve applicationRef
         ALL now ++ rest)
  ∧ ∀ e, instance_resolve () = Threw e →
      bound = Run (Settled now (Rejected e))
                  (before_resolve (instance middleware) instance_resolve
                     applicationRef ALL now)
      ∧ registrations bound = []
      ∧ handled (events bound) = []
      ∧ is_rejected (completion phase)
      ∧ ((∀ tuple t' e',
            tuple ∈ bound_tuples middlewareContainer →
            completion (bind_tuple middlewareContainer applicationRef now tuple)
              = Settled t' (Rejected e') → e' = e) →
         ∃ t, completion phase = Settled t (Rejected e)).
Proof.
  intros Htuple%elem_of_bound_tuples Hmw Hr bound phase. subst bound phase.
  split.
  { rewrite bindHandler_run, Hr. cbn.
    destruct (instance_resolve ()) as [[v|id|[t [h|e]|]]|e]; cbn;
      by (eexists; try rewrite app_nil_r). }
  intros e He.
  assert (bindHandler (instance middleware) metatype applicationRef ALL
            routePath now
          = Run (Settled now (Rejected e))
                (before_resolve (instance middleware) instance_resolve
                   applicationRef ALL now)) as Hbind.
  { rewrite bindHandler_run, Hr. cbn. by rewrite He. }
  assert (is_rejected
            (completion
               (registerMiddleware middlewareContainer applicationRef now)))
    as Hrej.
  { eapply registerMiddleware_is_rejected; [exact Htuple|].
    rewrite route_middleware_callback_run, Hmw. cbn. rewrite Hbind. cbn.
    by eexists _, _. }
  rewrite Hbind. repeat (split; [done|]). intros Hsame.
  destruct Hrej as (t & e' & Hphase). exists t. rewrite Hphase.
  apply registerMiddleware_rejected_inv in Hphase as (tuple & t0 & Hin & Hleaf).
  by rewrite (Hsame _ _ _ Hin Hleaf).
Qed.

Lemma bindHandler_resolve_throwing_witness :
  let instance_resolve := Scenario.resolve_throwing (UserError 4) in
  let logger := Scenario.middleware_of instance_resolve in
  let middlewareContainer := Scenario.container_with Scenario.users logger in
  let bound := bindHandler logger Scenario.Logger 0 ALL "/users" 0 in
  let phase := registerMiddleware middlewareContainer 0 0 in
  bound = Run (Settled 0 (Rejected (UserError 4)))
              (before_resolve logger instance_resolve 0 ALL 0)
  ∧ registrations bound = []
  ∧ handled (events bound) = []
  ∧ is_rejected (completion phase)
  ∧ ((∀ tuple t' e',
        tuple ∈ bound_tuples middlewareContainer →
        completion (bind_tuple middlewareContainer 0 0 tuple)
          = Settled t' (Rejected e') → e' = UserError 4) →
     ∃ t, completion phase = Settled t (Rejected (UserError 4))).
Proof.
  apply (proj2 (bindHandler_resolve_throwing
                  (Scenario.container_with Scenario.users
                     (Scenario.middleware_of
                        (Scenario.resolve_throwing (UserError 4))))
                  "M" Scenario.users "/users" Scenario.Logger
                  {| instance :=
                       Scenario.middleware_of
                         (Scenario.resolve_throwing (UserError 4));
                     metatype := Scenario.Logger |}
                  (Scenario.resolve_throwing (UserError 4)) 0 0
                  (list_elem_of_here _ _) eq_refl eq_refl)
               (UserError 4) eq_refl).
Defined.

(** C4.  When a route of a configuration names a middleware type for which
    the declaring module's registry entry holds no wrapper, the binding of
    that route is rejected with the internal error and so is the whole
    binding phase, six ticks after its start and before any other error can
    reach it; the phase is never fulfilled as if the route had been skipped,
    and that binding registers nothing. *)
Theorem missing_wrapper_rejects_binding_phase
    (middlewareContainer : MiddlewareContainer) (module : string)
    (config : MiddlewareConfiguration) (routePath : string)
    (metatype : Type_) (applicationRef : ApplicationRef) (now : tick) :
  (module, config, routePath, metatype) ∈ bound_tuples middlewareContainer →
  getMiddleware middlewareContainer module !! name metatype = None →
  completion (registerRouteMiddleware middlewareContainer routePath config
                module applicationRef now)
    = Settled (1 + now) (Rejected RuntimeException)
  ∧ completion (registerMiddleware middlewareContainer applicationRef now)
    = Settled (6 + now) (Rejected RuntimeException)
  ∧ route_middleware_callback middlewareContainer routePath module
      applicationRef metatype now
    = Run (Settled now (Rejected RuntimeException)) [].
Proof.
  intros Htuple%elem_of_bound_tuples Hnone. split; [|split].
  - destruct Htuple as (_ & _ & Hmt). unfold registerRouteMiddleware.
    eapply (await_all_internal _ _ _ now); [lia | | exact Hmt |].
    + intros m _. apply route_middleware_callback_late.
    + by rewrite route_middleware_callback_run, Hnone.
  - by eapply registerMiddleware_internal.
  - by rewrite route_middleware_callback_run, Hnone.
Qed.

Lemma missing_wrapper_rejects_binding_phase_witness :
  let middlewareContainer :=
    Scenario.container_with Scenario.users_guarded Scenario.without_resolve in
  completion (registerRouteMiddleware middlewareContainer "/users"
                Scenario.users_guarded "M" 0 0)
    = Settled (1 + 0) (Rejected RuntimeException)
  ∧ completion (registerMiddleware middlewareContainer 0 0)
    = Settled (6 + 0) (Rejected RuntimeException)
  ∧ route_middleware_callback middlewareContainer "/users" "M" 0 Scenario.Auth 0
    = Run (Settled 0 (Rejected RuntimeException)) [].
Proof.
  apply (missing_wrapper_rejects_binding_phase
           (Scenario.container_with Scenario.users_guarded
              Scenario.without_resolve)
           "M" Scenario.users_guarded "/users" Scenario.Auth 0 0).
  - vm_compute. right. left.
  - reflexivity.
Defined.

(** C6.  A tuple (module, configuration, route path, middleware type) whose
    binding is fulfilled has made exactly one call to the router, on the
    router function for [ALL] and with that route path, before it was
    fulfilled; the router calls of the whole phase are those of its tuples,
    so there are as many as fulfilled bindings; and a [middleware] field
    holding a single type is bound exactly as one holding the array of that
    one type. *)
Theorem one_registration_per_bound_tuple
    (middlewareContainer : MiddlewareContainer) (module : string)
    (config : MiddlewareConfiguration) (routePath : string)
    (metatype : Type_) (applicationRef : ApplicationRef) (now t : tick) :
  (module, config, routePath, metatype) ∈ bound_tuples middlewareContainer →
  completion (route_middleware_callback middlewareContainer routePath module
                applicationRef metatype now) = Settled t (Fulfilled ()) →
  let phase := registerMiddleware middlewareContainer applicationRef now in
  let bindings := bind_tuple middlewareContainer applicationRef now in
  (∃ t0 proxy,
     t0 < t
     ∧ registrations (route_middleware_callback middlewareContainer routePath
                        module applicationRef metatype now)
       = [(t0, RouterCalled (routerMethodFactory_get applicationRef ALL)
                 routePath proxy)])
  ∧ registrations phase
    = (bound_tuples middlewareContainer ≫= λ tuple,
         registrations (bindings tuple))
  ∧ length (registrations phase)
    = length (filter (λ tuple, is_fulfilled (completion (bindings tuple)) = true)
                (bound_tuples middlewareContainer))
  ∧ ∀ single routes,
      registerRouteMiddleware middlewareContainer routePath
        {| middleware := Single single; forRoutes := routes |} module
        applicationRef
      = registerRouteMiddleware middlewareContainer routePath
          {| middleware := Many [single]; forRoutes := routes |} module
          applicationRef.
Proof.
  intros _ Hdone phase bindings.
  assert (registrations phase
          = (bound_tuples middlewareContainer ≫= λ tuple,
               registrations (bindings tuple))) as Hphase.
  { unfold registrations. subst phase. rewrite registerMiddleware_trace.
    by rewrite filter_bind. }
  split; [|split; [done|split; [|done]]].
  - revert Hdone. rewrite route_middleware_callback_run.
    destruct (_ !! _) as [mw|]; cbn; [|done].
    rewrite bindHandler_run. destruct (resolve (instance mw)) as [rf|]; cbn;
      [|done].
    destruct (rf ()) as [[v|id|[t0 [h|e]|]]|e]; cbn; try done;
      intros [= <-]; eexists _, _; (split; [|reflexivity]); lia.
  - rewrite Hphase. apply length_bind_filter.
    intros [[[m c] r] mt]. apply bind_tuple_registrations.
Qed.

Lemma one_registration_per_bound_tuple_witness :
  let logger := Scenario.middleware_of (Scenario.resolve_to (VPlain Scenario.f)) in
  let middlewareContainer := Scenario.container_with Scenario.users logger in
  let phase := registerMiddleware middlewareContainer 0 0 in
  let bindings := bind_tuple middlewareContainer 0 0 in
  (∃ t0 proxy,
     t0 < 1
     ∧ registrations
         (route_middleware_callback middlewareContainer "/users" "M" 0
            Scenario.Logger 0)
       = [(t0, RouterCalled (routerMethodFactory_get 0 ALL) "/users" proxy)])
  ∧ registrations phase
    = (bound_tuples middlewareContainer ≫= λ tuple,
         registrations (bindings tuple))
  ∧ length (registrations phase)
    = length (filter (λ tuple, is_fulfilled (completion (bindings tuple)) = true)
                (bound_tuples middlewareContainer))
  ∧ ∀ single routes,
      registerRouteMiddleware middlewareContainer "/users"
        {| middleware := Single single; forRoutes := routes |} "M" 0
      = registerRouteMiddleware middlewareContainer "/users"
          {| middleware := Many [single]; forRoutes := routes |} "M" 0.
Proof.
  apply (one_registration_per_bound_tuple
           (Scenario.container_with Scenario.users
              (Scenario.middleware_of (Scenario.resolve_to (VPlain Scenario.f))))
           "M" Scenario.users "/users" Scenario.Logger 0 0 1).
  - vm_compute. left.
  - reflexivity.
Defined.

(** C7.  For every middleware bound by the phase, the proxy handed to the
    router holds the exception handler built for the resolved instance of
    that middleware; and when the proxy is invoked and its target handler
    throws or returns an awaitable that is rejected, that handler's [handle]
    is invoked exactly once, with the error and the arguments of the call,
    and the proxy completes: the error does not escape it. *)
Theorem proxy_hands_errors_to_exception_handler
    (middlewareContainer : MiddlewareContainer)
    (applicationRef : ApplicationRef) (now t : tick)
    (router : RouterFn) (path : string) (proxy : Proxy)
    (args : RequestArgs) (e : error) :
  (t, RouterCalled router path proxy)
    ∈ trace (registerMiddleware middlewareContainer applicationRef now) →
  (call_value (proxy_target proxy) args = Throws e
   ∨ ∃ t', call_value (proxy_target proxy) args
           = ReturnsAwaitable (Settled t' (Rejected e))) →
  handled (invoke_proxy proxy args).1
    = [ExceptionHandled (proxy_handler proxy) e args]
  ∧ (invoke_proxy proxy args).2 = Completed
  ∧ ∃ module metatype middleware,
      getMiddleware middlewareContainer module !! name metatype
        = Some middleware
      ∧ handler_instance (proxy_handler proxy) = instance middleware.
Proof.
  intros Hin Hcall. split; [|split].
  - unfold invoke_proxy. by destruct Hcall as [->|[t' ->]].
  - unfold invoke_proxy. by destruct Hcall as [->|[t' ->]].
  - rewrite registerMiddleware_trace in Hin.
    apply list_elem_of_bind in Hin as ([[[module config] routePath] metatype]
                                        & Hleaf & _).
    cbn in Hleaf. rewrite route_middleware_callback_run in Hleaf.
    destruct (_ !! _) as [mw|] eqn:Hmw; cbn in Hleaf;
      [|by apply elem_of_nil in Hleaf].
    exists module, metatype, mw. split; [done|].
    rewrite bindHandler_run in Hleaf.
    destruct (resolve (instance mw)) as [rf|]; cbn in Hleaf;
      [|by apply elem_of_nil in Hleaf].
    unfold before_resolve, binding in Hleaf.
    destruct (rf ()) as [[v|id|[t0 [h|e0]|]]|e0]; cbn in Hleaf;
      repeat (apply elem_of_cons in Hleaf as [Hleaf|Hleaf]; [try done|]);
      try (by apply elem_of_nil in Hleaf);
      by injection Hleaf as _ _ _ ->.
Qed.

Lemma proxy_hands_errors_to_exception_handler_witness :
  let instance_resolve := Scenario.resolve_to (VPlain Scenario.failing) in
  let logger := Scenario.middleware_of instance_resolve in
  let middlewareContainer := Scenario.container_with Scenario.users logger in
  let proxy :=
    createProxy (VPlain Scenario.failing)
      (routerExceptionFilter_create logger instance_resolve) in
  handled (invoke_proxy proxy Scenario.args).1
    = [ExceptionHandled (proxy_handler proxy) (UserError 1) Scenario.args]
  ∧ (invoke_proxy proxy Scenario.args).2 = Completed
  ∧ ∃ module metatype middleware,
      getMiddleware middlewareContainer module !! name metatype
        = Some middleware
      ∧ handler_instance (proxy_handler proxy) = instance middleware.
Proof.
  apply (proxy_hands_errors_to_exception_handler
           (Scenario.container_with Scenario.users
              (Scenario.middleware_of
                 (Scenario.resolve_to (VPlain Scenario.failing))))
           0 0 0 (routerMethodFactory_get 0 ALL) "/users"
           (createProxy (VPlain Scenario.failing)
              (routerExceptionFilter_create
                 (Scenario.middleware_of
                    (Scenario.resolve_to (VPlain Scenario.failing)))
                 (Scenario.resolve_to (VPlain Scenario.failing))))
           Scenario.args (UserError 1)).
  - vm_compute. do 3 right. left.
  - left. reflexivity.
Defined.

(** * Further properties *)

(** ** Rejections through the levels of a fan-out *)

Lemma first_rejection_earlier {A} (p : promise A) (ps : list (promise A)) :
  first_rejection (p :: ps) = earlier (rejection p) (first_rejection ps).
Proof.
  rewrite first_rejection_cons.
  destruct p as [t [a|e]|]; cbn; by destruct (first_rejection ps) as [[??]|].
Qed.

Lemma earlier_assoc a b c : earlier a (earlier b c) = earlier (earlier a b) c.
Proof.
  destruct a as [[ta ea]|], b as [[tb eb]|], c as [[tc ec]|]; cbn; try done;
    repeat match goal with
           | |- context [(?x <=? ?y)%nat] =>
               destruct (Nat.leb_spec x y); cbn
           end; try done; lia.
Qed.

Lemma first_rejection_app {A} (ps qs : list (promise A)) :
  first_rejection (ps ++ qs) = earlier (first_rejection ps) (first_rejection qs).
Proof.
  induction ps as [|p ps IH]; cbn [app].
  - by destruct (first_rejection qs) as [[??]|].
  - by rewrite !first_rejection_earlier, IH, earlier_assoc.
Qed.

Lemma later_earlier k a b :
  later k <$> earlier a b = earlier (later k <$> a) (later k <$> b).
Proof.
  destruct a as [[ta ea]|], b as [[tb eb]|]; cbn; try done.
  unfold later; cbn.
  destruct (Nat.leb_spec ta tb), (Nat.leb_spec (k + ta) (k + tb)); try done; lia.
Qed.

Lemma later_later j k (r : option (tick * error)) :
  later j <$> (later k <$> r) = later (j + k) <$> r.
Proof.
  destruct r as [[t e]|]; [|done]. unfold later; cbn. do 2 f_equal. lia.
Qed.

(** The rejections of a list of promises of different types. *)
Lemma first_rejection_flatten {A B C} (k : nat) (g : A → promise B)
    (leaves : A → list (promise C)) (xs : list A) :
  (∀ x, x ∈ xs → rejection (g x) = later k <$> first_rejection (leaves x)) →
  first_rejection (g <$> xs) = later k <$> first_rejection (xs ≫= leaves).
Proof.
  induction xs as [|x xs IH]; intros Hg; [done|].
  rewrite fmap_cons, bind_cons, first_rejection_earlier, first_rejection_app.
  rewrite later_earlier, Hg, IH; [done| |left].
  intros y Hy. apply Hg. by right.
Qed.

Lemma first_rejection_fmap_rejection {A B} (g : A → promise B) (xs : list A) :
  first_rejection (g <$> xs)
  = later 0 <$> first_rejection (xs ≫= λ x, [g x]).
Proof.
  apply first_rejection_flatten. intros x _.
  rewrite first_rejection_earlier. cbn. by destruct (rejection (g x)) as [[??]|].
Qed.

Lemma rejection_promise_all {A} (now : tick) (ps : list (promise A)) :
  rejection (promise_all now ps) = first_rejection ps.
Proof.
  unfold promise_all. destruct (first_rejection ps) as [[t e]|]; [done|].
  by destruct (all_fulfilled now ps) as [[??]|].
Qed.

Lemma rejection_settle_after {A} (now : tick) (p : promise A) :
  not_before now (rejection p) →
  rejection (settle_after now p) = later 1 <$> rejection p.
Proof.
  destruct p as [t [a|e]|]; cbn; try done. intros Hp.
  specialize (Hp t e eq_refl). unfold later; cbn. by rewrite Nat.max_r.
Qed.

Lemma not_before_first_rejection {A} (now : tick) (ps : list (promise A)) :
  (∀ p, p ∈ ps → not_before now (rejection p)) →
  not_before now (first_rejection ps).
Proof.
  intros Hps t e Hf%first_rejection_elem. exact (Hps _ Hf t e eq_refl).
Qed.

Lemma not_before_later (now k : tick) (r : option (tick * error)) :
  not_before now r → not_before now (later k <$> r).
Proof.
  destruct r as [[t e]|]; [|done]. intros Hr t' e' [= <- <-].
  specialize (Hr t e eq_refl). lia.
Qed.

Lemma rejection_await_all {A B} (f : A → Task B) (xs : list A) (now : tick) :
  (∀ x, x ∈ xs → not_before now (rejection (completion (f x now)))) →
  rejection
    (completion
       ((ps ← map_async f xs; all ← Promise_all ps; _ ← await all; ret ()) now))
  = later 1 <$> first_rejection ((λ x, completion (f x now)) <$> xs).
Proof.
  intros Hxs. rewrite await_all_run. cbn.
  rewrite rejection_settle_after, rejection_promise_all; [done|].
  rewrite rejection_promise_all. apply not_before_first_rejection.
  intros p (x & -> & Hx)%list_elem_of_fmap. by apply Hxs.
Qed.

Lemma rejection_await_call {A} (body : Task A) (now : tick) :
  not_before now (rejection (completion (body now))) →
  rejection (completion ((p ← call_async body; await p) now))
  = later 1 <$> rejection (completion (body now)).
Proof.
  intros Hb. rewrite call_await_run. cbn.
  destruct (completion (body now)) as [t [a|e]|]; cbn; try done.
  specialize (Hb t e eq_refl). unfold later; cbn. by rewrite Nat.max_r.
Qed.

Lemma fmap_bind {A B C} (f : B → C) (g : A → list B) (xs : list A) :
  f <$> (xs ≫= g) = xs ≫= λ x, f <$> g x.
Proof.
  induction xs as [|x xs IH]; [done|].
  by rewrite !bind_cons, fmap_app, IH.
Qed.

Section Rejections.
Variable middlewareContainer : MiddlewareContainer.
Variable applicationRef : ApplicationRef.
Variable now : tick.

Lemma route_middleware_callback_not_before routePath module metatype :
  not_before now
    (rejection
       (completion (route_middleware_callback middlewareContainer routePath
                      module applicationRef metatype now))).
Proof.
  rewrite route_middleware_callback_run. intros t e.
  destruct (_ !! _) as [mw|]; cbn.
  - destruct (completion _) as [t0 [a|e0]|]; cbn; try done.
    intros [= <- <-]. lia.
  - intros [= <- <-]. lia.
Qed.

Lemma route_bindings_not_before routePath config module :
  not_before now
    (first_rejection
       (route_bindings middlewareContainer applicationRef now routePath config
          module)).
Proof.
  apply not_before_first_rejection.
  intros p (mt & -> & _)%list_elem_of_fmap.
  apply route_middleware_callback_not_before.
Qed.

Lemma rejection_registerRouteMiddleware routePath config module :
  rejection
    (completion (registerRouteMiddleware middlewareContainer routePath config
                   module applicationRef now))
  = later 1 <$>
      first_rejection
        (route_bindings middlewareContainer applicationRef now routePath
           config module).
Proof.
  unfold registerRouteMiddleware. apply rejection_await_all.
  intros mt _. apply route_middleware_callback_not_before.
Qed.

Lemma rejection_route_callback config module routePath :
  rejection
    (completion (route_callback middlewareContainer config module
                   applicationRef routePath now))
  = later 2 <$>
      first_rejection
        (route_bindings middlewareContainer applicationRef now routePath
           config module).
Proof.
  unfold route_callback.
  rewrite rejection_await_call, rejection_registerRouteMiddleware.
  - apply later_later.
  - rewrite rejection_registerRouteMiddleware.
    apply not_before_later, route_bindings_not_before.
Qed.

Lemma rejection_registerMiddlewareConfig config module :
  rejection
    (completion (registerMiddlewareConfig middlewareContainer config module
                   applicationRef now))
  = later 3 <$>
      first_rejection
        (forRoutes config ≫= λ routePath,
           route_bindings middlewareContainer applicationRef now routePath
             config module).
Proof.
  unfold registerMiddlewareConfig. rewrite rejection_await_all.
  - rewrite (first_rejection_flatten 2 _
               (λ routePath,
                  route_bindings middlewareContainer applicationRef now
                    routePath config module)).
    + apply later_later.
    + intros routePath _. apply rejection_route_callback.
  - intros routePath _. rewrite rejection_route_callback.
    apply not_before_later, route_bindings_not_before.
Qed.

Lemma config_leaves_not_before config module :
  not_before now
    (first_rejection
       (forRoutes config ≫= λ routePath,
          route_bindings middlewareContainer applicationRef now routePath
            config module)).
Proof.
  apply not_before_first_rejection.
  intros p (routePath & (mt & -> & _)%list_elem_of_fmap & _)%list_elem_of_bind.
  apply route_middleware_callback_not_before.
Qed.

Lemma rejection_config_callback module config :
  rejection
    (completion (config_callback middlewareContainer module applicationRef
                   config now))
  = later 4 <$>
      first_rejection
        (forRoutes config ≫= λ routePath,
           route_bindings middlewareContainer applicationRef now routePath
             config module).
Proof.
  unfold config_callback.
  rewrite rejection_await_call, rejection_registerMiddlewareConfig.
  - apply later_later.
  - rewrite rejection_registerMiddlewareConfig.
    apply not_before_later, config_leaves_not_before.
Qed.

Lemma rejection_module_callback entry :
  rejection
    (completion (module_callback middlewareContainer applicationRef entry now))
  = later 5 <$>
      first_rejection
        (entry.2 ≫= λ config,
           forRoutes config ≫= λ routePath,
             route_bindings middlewareContainer applicationRef now routePath
               config entry.1).
Proof.
  destruct entry as [module moduleConfigs]. cbn [fst snd].
  unfold module_callback, registerAllConfigs. rewrite rejection_await_all.
  - rewrite (first_rejection_flatten 4 _
               (λ config, forRoutes config ≫= λ routePath,
                            route_bindings middlewareContainer
                              applicationRef now routePath config module)).
    + apply later_later.
    + intros config _. apply rejection_config_callback.
  - intros config _. rewrite rejection_config_callback.
    apply not_before_later, config_leaves_not_before.
Qed.

Lemma bound_tuples_leaves :
  (λ tuple, completion (bind_tuple middlewareContainer applicationRef now tuple))
    <$> bound_tuples middlewareContainer
  = getConfigs middlewareContainer ≫= λ entry,
      entry.2 ≫= λ config,
        forRoutes config ≫= λ routePath,
          route_bindings middlewareContainer applicationRef now routePath
            config entry.1.
Proof.
  unfold bound_tuples. rewrite fmap_bind. apply list_bind_ext; [|done].
  intros [module moduleConfigs]. rewrite fmap_bind.
  apply list_bind_ext; [|done]. intros config. rewrite fmap_bind.
  apply list_bind_ext; [|done]. intros routePath. rewrite fmap_bind. cbn.
  unfold route_bindings.
  induction (concat_into_empty (middleware config)) as [|mt mts IH]; [done|].
  by rewrite bind_cons, fmap_cons, IH.
Qed.

Lemma rejection_registerMiddleware :
  rejection
    (completion (registerMiddleware middlewareContainer applicationRef now))
  = later 6 <$>
      first_rejection
        ((λ tuple,
            completion
              (bind_tuple middlewareContainer applicationRef now tuple))
           <$> bound_tuples middlewareContainer).
Proof.
  rewrite bound_tuples_leaves. unfold registerMiddleware.
  rewrite rejection_await_all.
  - rewrite (first_rejection_flatten 5 _
               (λ entry, entry.2 ≫= λ config,
                  forRoutes config ≫= λ routePath,
                    route_bindings middlewareContainer applicationRef now
                      routePath config entry.1)).
    + apply later_later.
    + intros entry _. apply rejection_module_callback.
  - intros entry _. rewrite rejection_module_callback.
    apply not_before_later, not_before_first_rejection.
    intros p (config & (routePath & (mt & -> & _)%list_elem_of_fmap & _)
                %list_elem_of_bind & _)%list_elem_of_bind.
    apply route_middleware_callback_not_before.
Qed.
End Rejections.

(** ** Fulfilment through the levels of a fan-out *)

Lemma all_fulfilled_Some {A} (now : tick) (ps : list (promise A)) t vs :
  all_fulfilled now ps = Some (t, vs) →
  now ≤ t ∧ ∀ p, p ∈ ps → ∃ tp a, p = Settled tp (Fulfilled a) ∧ tp ≤ t.
Proof.
  revert t vs. induction ps as [|p ps IH]; intros t vs; cbn.
  - intros [= <- <-]. split; [done|]. by intros p ?%elem_of_nil.
  - destruct p as [tp [a|e]|]; try done.
    destruct (all_fulfilled now ps) as [[t' vs']|]; [|done].
    intros [= <- <-]. destruct (IH _ _ eq_refl) as [Hnow Hps].
    split; [lia|]. intros p [->|Hp]%elem_of_cons.
    + exists tp, a. split; [done|lia].
    + destruct (Hps p Hp) as (tq & b & -> & Hle). exists tq, b.
      split; [done|lia].
Qed.

Lemma all_fulfilled_is_Some {A} (now : tick) (ps : list (promise A)) :
  (∀ p, p ∈ ps → is_fulfilled p = true) → is_Some (all_fulfilled now ps).
Proof.
  induction ps as [|p ps IH]; intros Hps; cbn; [by eexists|].
  pose proof (Hps p (list_elem_of_here _ _)) as Hp.
  destruct p as [tp [a|e]|]; try done.
  destruct IH as [[t vs] ->]; [|by eexists].
  intros q Hq. apply Hps. by right.
Qed.

Lemma promise_all_fulfilled_at {A} (now : tick) (ps : list (promise A)) t vs :
  promise_all now ps = Settled t (Fulfilled vs) →
  now ≤ t ∧ ∀ p, p ∈ ps → ∃ tp a, p = Settled tp (Fulfilled a) ∧ tp ≤ t.
Proof.
  unfold promise_all. destruct (first_rejection ps) as [[??]|]; [done|].
  destruct (all_fulfilled now ps) as [[t' vs']|] eqn:Hall; [|done].
  intros [= <- <-]. by eapply all_fulfilled_Some.
Qed.

Lemma promise_all_is_fulfilled {A} (now : tick) (ps : list (promise A)) :
  is_fulfilled (promise_all now ps) = true ↔
  ∀ p, p ∈ ps → is_fulfilled p = true.
Proof.
  split.
  - destruct (promise_all now ps) as [t [vs|e]|] eqn:Hall; try done.
    intros _ p Hp.
    destruct (proj2 (promise_all_fulfilled_at _ _ _ _ Hall) p Hp)
      as (tp & a & -> & _).
    done.
  - intros Hps. unfold promise_all.
    assert (first_rejection ps = None) as ->.
    { apply first_rejection_None. intros t e Hin. by specialize (Hps _ Hin). }
    by destruct (all_fulfilled_is_Some now ps Hps) as [[t vs] ->].
Qed.

Lemma await_all_fulfilled_at {A B} (f : A → Task B) (xs : list A) now t u :
  completion
    ((ps ← map_async f xs; all ← Promise_all ps; _ ← await all; ret ()) now)
  = Settled t (Fulfilled u) →
  now < t
  ∧ ∀ x, x ∈ xs → ∃ tx a, completion (f x now) = Settled tx (Fulfilled a)
                          ∧ tx < t.
Proof.
  rewrite await_all_run. cbn.
  destruct (promise_all now _) as [t0 [vs|e]|] eqn:Hall; cbn; try done.
  intros [= <- _]. apply promise_all_fulfilled_at in Hall as [Hnow Hps].
  split; [lia|]. intros x Hx.
  destruct (Hps (completion (f x now))) as (tx & a & Hfx & Hle).
  { apply list_elem_of_fmap. by exists x. }
  exists tx, a. split; [done|lia].
Qed.

Lemma await_all_is_fulfilled {A B} (f : A → Task B) (xs : list A) now :
  is_fulfilled
    (completion
       ((ps ← map_async f xs; all ← Promise_all ps; _ ← await all; ret ()) now))
  = true ↔
  ∀ x, x ∈ xs → is_fulfilled (completion (f x now)) = true.
Proof.
  rewrite await_all_run. cbn.
  set (ps := (λ x, completion (f x now)) <$> xs).
  assert (is_fulfilled (settle_after now (promise_all now ps))
          = is_fulfilled (promise_all now ps)) as ->.
  { by destruct (promise_all now ps) as [t0 [vs|e]|]. }
  rewrite promise_all_is_fulfilled. subst ps. split.
  - intros Hps x Hx. apply Hps, list_elem_of_fmap. by exists x.
  - intros Hxs p (x & -> & Hx)%list_elem_of_fmap. by apply Hxs.
Qed.

Lemma await_call_fulfilled_at {A} (body : Task A) now t a :
  completion ((p ← call_async body; await p) now) = Settled t (Fulfilled a) →
  ∃ tb, completion (body now) = Settled tb (Fulfilled a) ∧ tb < t.
Proof.
  rewrite call_await_run. cbn.
  destruct (completion (body now)) as [tb o|]; [|done].
  intros [= <- ->]. exists tb. split; [done|lia].
Qed.

Lemma await_call_is_fulfilled {A} (body : Task A) now :
  is_fulfilled (completion ((p ← call_async body; await p) now))
  = is_fulfilled (completion (body now)).
Proof.
  rewrite call_await_run. cbn. by destruct (completion (body now)) as [tb [a|e]|].
Qed.

Lemma registerMiddleware_is_fulfilled middlewareContainer applicationRef now :
  is_fulfilled
    (completion (registerMiddleware middlewareContainer applicationRef now))
  = true ↔
  ∀ tuple, tuple ∈ bound_tuples middlewareContainer →
    is_fulfilled
      (completion (bind_tuple middlewareContainer applicationRef now tuple))
    = true.
Proof.
  unfold registerMiddleware. rewrite await_all_is_fulfilled. split.
  - intros Hall [[[module config] routePath] metatype]
      ((cs & Hm & Hc) & Hr & Hmt)%elem_of_bound_tuples.
    specialize (Hall _ Hm). unfold module_callback, registerAllConfigs in Hall.
    rewrite await_all_is_fulfilled in Hall. specialize (Hall _ Hc).
    unfold config_callback in Hall. rewrite await_call_is_fulfilled in Hall.
    unfold registerMiddlewareConfig in Hall.
    rewrite await_all_is_fulfilled in Hall. specialize (Hall _ Hr).
    unfold route_callback in Hall. rewrite await_call_is_fulfilled in Hall.
    unfold registerRouteMiddleware in Hall.
    rewrite await_all_is_fulfilled in Hall. exact (Hall _ Hmt).
  - intros Hall [module cs] Hm. unfold module_callback, registerAllConfigs.
    apply await_all_is_fulfilled. intros config Hc.
    unfold config_callback. rewrite await_call_is_fulfilled.
    unfold registerMiddlewareConfig. apply await_all_is_fulfilled.
    intros routePath Hr. unfold route_callback.
    rewrite await_call_is_fulfilled. unfold registerRouteMiddleware.
    apply await_all_is_fulfilled. intros metatype Hmt.
    apply (Hall (module, config, routePath, metatype)).
    apply elem_of_bound_tuples. unfold bound_tuple. eauto 10.
Qed.

Lemma registerMiddleware_fulfilled_at middlewareContainer applicationRef now t u
    tuple :
  completion (registerMiddleware middlewareContainer applicationRef now)
    = Settled t (Fulfilled u) →
  tuple ∈ bound_tuples middlewareContainer →
  ∃ tb, completion (bind_tuple middlewareContainer applicationRef now tuple)
        = Settled tb (Fulfilled ())
        ∧ tb + 6 ≤ t.
Proof.
  destruct tuple as [[[module config] routePath] metatype].
  intros Hphase ((cs & Hm & Hc) & Hr & Hmt)%elem_of_bound_tuples.
  unfold registerMiddleware in Hphase.
  apply await_all_fulfilled_at in Hphase as [_ Hphase].
  destruct (Hphase _ Hm) as (t5 & [] & H5 & Hlt5).
  unfold module_callback, registerAllConfigs in H5.
  apply await_all_fulfilled_at in H5 as [_ H5].
  destruct (H5 _ Hc) as (t4 & [] & H4 & Hlt4).
  apply await_call_fulfilled_at in H4 as (t3 & H3 & Hlt3).
  apply await_all_fulfilled_at in H3 as [_ H3].
  destruct (H3 _ Hr) as (t2 & [] & H2 & Hlt2).
  apply await_call_fulfilled_at in H2 as (t1 & H1 & Hlt1).
  apply await_all_fulfilled_at in H1 as [_ H1].
  destruct (H1 _ Hmt) as (tb & [] & Hb & Hltb).
  exists tb. split; [done|lia].
Qed.

Lemma rejection_Some {A} (p : promise A) t e :
  rejection p = Some (t, e) ↔ p = Settled t (Rejected e).
Proof. destruct p as [t0 [a|e0]|]; cbn; split; congruence. Qed.

Lemma not_all_fulfilled {A} (ps : list (promise A)) :
  (∀ p, p ∈ ps → rejection p = None) →
  ¬ (∀ p, p ∈ ps → is_fulfilled p = true) →
  Pending ∈ ps.
Proof.
  induction ps as [|p ps IH]; intros Hrej Hful.
  - destruct Hful. by intros p ?%elem_of_nil.
  - pose proof (Hrej p (list_elem_of_here _ _)) as Hp.
    destruct p as [t [a|e]|]; try done; [|left].
    right. apply IH.
    + intros q Hq. apply Hrej. by right.
    + intros Hps. apply Hful. intros q [->|Hq]%elem_of_cons; [done|by apply Hps].
Qed.

Lemma filter_all {A} (P : A → Prop) `{!∀ x, Decision (P x)} (xs : list A) :
  (∀ x, x ∈ xs → P x) → filter P xs = xs.
Proof.
  induction xs as [|x xs IH]; intros Hxs; [done|].
  rewrite filter_cons_True by (apply Hxs; left).
  f_equal. apply IH. intros y Hy. apply Hxs. by right.
Qed.

(** ** How the binding phase ends *)

(** X6.  [registerMiddleware] is rejected exactly when a binding is, and then
    with the error of the binding that is rejected first, six ticks after
    it; among bindings rejected in the same tick the one started first
    wins. *)
Theorem registerMiddleware_rejects_with_first_rejected_binding
    (middlewareContainer : MiddlewareContainer)
    (applicationRef : ApplicationRef) (now t : tick) (e : error) :
  let bound := bound_tuples middlewareContainer in
  let settles tuple :=
    completion (bind_tuple middlewareContainer applicationRef now tuple) in
  completion (registerMiddleware middlewareContainer applicationRef now)
    = Settled t (Rejected e) ↔
  ∃ i tuple t0,
    bound !! i = Some tuple
    ∧ settles tuple = Settled t0 (Rejected e)
    ∧ t = 6 + t0
    ∧ ∀ j tuple' t' e',
        bound !! j = Some tuple' →
        settles tuple' = Settled t' (Rejected e') →
        t0 ≤ t' ∧ (j < i → t0 < t').
Proof.
  intros bound settles.
  rewrite <- rejection_Some, rejection_registerMiddleware.
  fold bound. change (λ tuple, completion (bind_tuple _ _ _ tuple)) with settles.
  split.
  - destruct (first_rejection (settles <$> bound)) as [[t0 e0]|] eqn:Hf;
      [|done].
    intros [= <- <-]. apply first_rejection_lookup in Hf as (i & Hi & Hle).
    rewrite list_lookup_fmap in Hi.
    destruct (bound !! i) as [tuple|] eqn:Htuple; [|done].
    injection Hi as Hi. exists i, tuple, t0.
    split; [done|]. split; [done|]. split; [done|].
    intros j tuple' t' e' Hj Hs. apply (Hle j t' e').
    by rewrite list_lookup_fmap, Hj; cbn; f_equal.
  - intros (i & tuple & t0 & Hi & Hs & -> & Hle).
    assert (first_rejection (settles <$> bound) = Some (t0, e)) as ->; [|done].
    apply first_rejection_lookup. exists i. split.
    + by rewrite list_lookup_fmap, Hi; cbn; f_equal.
    + intros j t' e' Hj. rewrite list_lookup_fmap in Hj.
      destruct (bound !! j) as [tuple'|] eqn:Htuple'; [|done].
      injection Hj as Hj. by eapply Hle.
Qed.

Lemma registerMiddleware_rejects_with_first_rejected_binding_witness :
  completion
    (registerMiddleware
       (Scenario.container_with Scenario.users_guarded Scenario.without_resolve)
       0 0)
  = Settled 6 (Rejected RuntimeException).
Proof.
  apply (proj2 (registerMiddleware_rejects_with_first_rejected_binding
                  (Scenario.container_with Scenario.users_guarded
                     Scenario.without_resolve) 0 0 6 RuntimeException)).
  exists 1, ("M", Scenario.users_guarded, "/users", Scenario.Auth), 0.
  split; [reflexivity|]. split; [reflexivity|]. split; [reflexivity|].
  intros [|[|j]] tuple' t' e' Hj Hs; [| |done].
  - injection Hj as <-. vm_compute in Hs. injection Hs as <- _. split; lia.
  - injection Hj as <-. vm_compute in Hs. injection Hs as <- _. split; lia.
Defined.

(** X7.  [registerMiddleware] is fulfilled exactly when every binding is;
    it is then fulfilled at least six ticks after the last of them, and the
    router has been called once for every bound tuple. *)
Theorem registerMiddleware_fulfils_once_every_binding_has
    (middlewareContainer : MiddlewareContainer)
    (applicationRef : ApplicationRef) (now : tick) :
  let phase := registerMiddleware middlewareContainer applicationRef now in
  let settles tuple :=
    completion (bind_tuple middlewareContainer applicationRef now tuple) in
  (is_fulfilled (completion phase) = true ↔
   ∀ tuple, tuple ∈ bound_tuples middlewareContainer →
            is_fulfilled (settles tuple) = true)
  ∧ ∀ t, completion phase = Settled t (Fulfilled ()) →
      length (registrations phase) = length (bound_tuples middlewareContainer)
      ∧ ∀ tuple, tuple ∈ bound_tuples middlewareContainer →
          ∃ t0, settles tuple = Settled t0 (Fulfilled ()) ∧ t0 + 6 ≤ t.
Proof.
  intros phase settles. split; [apply registerMiddleware_is_fulfilled|].
  intros t Hphase. split.
  - unfold registrations. subst phase. rewrite registerMiddleware_trace.
    rewrite filter_bind.
    rewrite (length_bind_filter
               (λ tuple,
                  is_fulfilled
                    (completion
                       (bind_tuple middlewareContainer applicationRef now
                          tuple)) = true)).
    + f_equal. apply filter_all.
      apply registerMiddleware_is_fulfilled. by rewrite Hphase.
    + intros tuple. apply bind_tuple_registrations.
  - intros tuple Htuple. by eapply registerMiddleware_fulfilled_at.
Qed.

Lemma registerMiddleware_fulfils_once_every_binding_has_witness :
  let logger :=
    Scenario.middleware_of
      (Scenario.resolve_to (VPromise (Settled 5 (Fulfilled Scenario.f)))) in
  let middlewareContainer := Scenario.container_with Scenario.users logger in
  let phase := registerMiddleware middlewareContainer 0 0 in
  length (registrations phase) = length (bound_tuples middlewareContainer)
  ∧ ∀ tuple, tuple ∈ bound_tuples middlewareContainer →
      ∃ t0, completion (bind_tuple middlewareContainer 0 0 tuple)
            = Settled t0 (Fulfilled ())
            ∧ t0 + 6 ≤ 13.
Proof.
  apply (proj2 (registerMiddleware_fulfils_once_every_binding_has
                  (Scenario.container_with Scenario.users
                     (Scenario.middleware_of
                        (Scenario.resolve_to
                           (VPromise (Settled 5 (Fulfilled Scenario.f))))))
                  0 0) 13).
  reflexivity.
Defined.

(** X8.  [registerMiddleware] never settles exactly when no binding is
    rejected and some binding never settles: a promise returned by
    [resolve()] that stays pending keeps the phase pending, without any
    timeout, and a rejection elsewhere is what ends it. *)
Theorem registerMiddleware_pending_without_timeout
    (middlewareContainer : MiddlewareContainer)
    (applicationRef : ApplicationRef) (now : tick) :
  let settles tuple :=
    completion (bind_tuple middlewareContainer applicationRef now tuple) in
  completion (registerMiddleware middlewareContainer applicationRef now)
    = Pending ↔
  (∀ tuple, tuple ∈ bound_tuples middlewareContainer →
            rejection (settles tuple) = None)
  ∧ ∃ tuple, tuple ∈ bound_tuples middlewareContainer
             ∧ settles tuple = Pending.
Proof.
  intros settles.
  pose proof (rejection_registerMiddleware middlewareContainer applicationRef
                now) as Hrej.
  pose proof (registerMiddleware_is_fulfilled middlewareContainer
                applicationRef now) as Hful.
  change (λ tuple, completion (bind_tuple _ _ _ tuple)) with settles in Hrej.
  assert (first_rejection (settles <$> bound_tuples middlewareContainer) = None
          ↔ ∀ tuple, tuple ∈ bound_tuples middlewareContainer →
                     rejection (settles tuple) = None) as Hnone.
  { rewrite first_rejection_None. split.
    - intros H tuple Htuple.
      destruct (settles tuple) as [t [a|e]|] eqn:Hs; try done.
      destruct (H t e). apply list_elem_of_fmap. by exists tuple.
    - intros H t e (tuple & Hs & Htuple)%list_elem_of_fmap.
      specialize (H _ Htuple). by rewrite <- Hs in H. }
  split.
  - intros Hpending. rewrite Hpending in Hrej, Hful. cbn in Hrej, Hful.
    assert (first_rejection (settles <$> bound_tuples middlewareContainer)
            = None) as Hf.
    { by destruct (first_rejection _) as [[??]|]. }
    split; [by apply Hnone|].
    assert (Pending ∈ settles <$> bound_tuples middlewareContainer) as Hin.
    { apply not_all_fulfilled.
      - intros p (tuple & -> & Htuple)%list_elem_of_fmap.
        by apply (proj1 Hnone Hf).
      - intros Hall. assert (false = true); [|done]. apply Hful.
        intros tuple Htuple. apply Hall, list_elem_of_fmap. by exists tuple. }
    apply list_elem_of_fmap in Hin as (tuple & Hs & Htuple). by exists tuple.
  - intros [Hno (tuple & Htuple & Hs)].
    destruct (completion (registerMiddleware _ _ _)) as [t [[]|e]|] eqn:Hphase;
      [| |done].
    + assert (is_fulfilled (settles tuple) = true) as Hf.
      { by apply (proj1 Hful eq_refl). }
      by rewrite Hs in Hf.
    + cbn in Hrej. apply Hnone in Hno. by rewrite Hno in Hrej.
Qed.

Lemma registerMiddleware_pending_without_timeout_witness :
  completion
    (registerMiddleware
       (Scenario.container_with Scenario.users
          (Scenario.middleware_of (Scenario.resolve_to (VPromise Pending))))
       0 0)
  = Pending.
Proof.
  apply (proj2 (registerMiddleware_pending_without_timeout
                  (Scenario.container_with Scenario.users
                     (Scenario.middleware_of
                        (Scenario.resolve_to (VPromise Pending)))) 0 0)).
  split.
  - intros tuple Htuple. apply list_elem_of_singleton in Htuple as ->.
    reflexivity.
  - exists ("M", Scenario.users, "/users", Scenario.Logger).
    split; [left | reflexivity].
Defined.

(** ** One tuple, case by case *)

Lemma bind_tuple_run middlewareContainer applicationRef now module config
    routePath metatype :
  bind_tuple middlewareContainer applicationRef now
    (module, config, routePath, metatype) =
  match getMiddleware middlewareContainer module !! name metatype with
  | None => Run (Settled now (Rejected RuntimeException)) []
  | Some middleware =>
      match resolve (instance middleware) with
      | None =>
          Run (Settled (S now)
                 (Rejected (InvalidMiddlewareException (name metatype)))) []
      | Some instance_resolve =>
          let pre := before_resolve (instance middleware) instance_resolve
                       applicationRef ALL now in
          let bound := binding (instance middleware) instance_resolve
                         applicationRef ALL routePath in
          match instance_resolve () with
          | Threw e => Run (Settled (S now) (Rejected e)) pre
          | Returned (VPromise (Settled t (Fulfilled h))) =>
              Run (Settled (S (S (Nat.max now t))) (Fulfilled ()))
                  (pre ++ [(S (Nat.max now t), bound (VPlain h))])
          | Returned (VPromise (Settled t (Rejected e))) =>
              Run (Settled (S (S (Nat.max now t))) (Rejected e)) pre
          | Returned (VPromise Pending) => Run Pending pre
          | Returned v =>
              Run (Settled (S now) (Fulfilled ())) (pre ++ [(now, bound v)])
          end
      end
  end.
Proof.
  cbn. rewrite route_middleware_callback_run.
  destruct (_ !! _) as [mw|]; [|done]. cbn. rewrite bindHandler_run.
  destruct (resolve (instance mw)) as [rf|]; cbn.
  - destruct (rf ()) as [[v|q|[t [h|e]|]]|e]; cbn; try done;
      rewrite ?Nat.max_id; try done; do 2 f_equal; lia.
  - by rewrite Nat.max_id.
Qed.

(** X9.  Every error [registerMiddleware] is rejected with comes from one of
    its bound tuples: it is the internal error of a type without wrapper, the
    invalid-middleware error naming a type whose instance has no [resolve],
    or the error that [resolve()] threw or that the promise it returned was
    rejected with, unchanged. *)
Theorem registerMiddleware_error_provenance
    (middlewareContainer : MiddlewareContainer)
    (applicationRef : ApplicationRef) (now t : tick) (e : error) :
  completion (registerMiddleware middlewareContainer applicationRef now)
    = Settled t (Rejected e) →
  ∃ module config routePath metatype,
    (module, config, routePath, metatype) ∈ bound_tuples middlewareContainer
    ∧ match getMiddleware middlewareContainer module !! name metatype with
      | None => e = RuntimeException
      | Some middleware =>
          match resolve (instance middleware) with
          | None => e = InvalidMiddlewareException (name metatype)
          | Some instance_resolve =>
              instance_resolve () = Threw e
              ∨ ∃ t', instance_resolve ()
                      = Returned (VPromise (Settled t' (Rejected e)))
          end
      end.
Proof.
  intros ([[[module config] routePath] metatype] & t0 & Hin & Hleaf)
    %registerMiddleware_rejected_inv.
  exists module, config, routePath, metatype. split; [done|].
  rewrite bind_tuple_run in Hleaf.
  destruct (_ !! _) as [mw|]; [|by injection Hleaf as _ <-].
  destruct (resolve (instance mw)) as [rf|]; [|by injection Hleaf as _ <-].
  cbn in Hleaf.
  destruct (rf ()) as [[v|q|[t1 [h|e1]|]]|e1]; cbn in Hleaf; try done.
  - injection Hleaf as _ <-. right. by exists t1.
  - injection Hleaf as _ <-. by left.
Qed.

Lemma registerMiddleware_error_provenance_witness :
  ∃ module config routePath metatype,
    (module, config, routePath, metatype)
      ∈ bound_tuples
          (Scenario.container_with Scenario.users Scenario.without_resolve)
    ∧ match getMiddleware
              (Scenario.container_with Scenario.users Scenario.without_resolve)
              module !! name metatype with
      | None => InvalidMiddlewareException "Logger" = RuntimeException
      | Some middleware =>
          match resolve (instance middleware) with
          | None =>
              InvalidMiddlewareException "Logger"
              = InvalidMiddlewareException (name metatype)
          | Some instance_resolve =>
              instance_resolve () = Threw (InvalidMiddlewareException "Logger")
              ∨ ∃ t', instance_resolve ()
                      = Returned
                          (VPromise
                             (Settled t'
                                (Rejected (InvalidMiddlewareException "Logger"))))
          end
      end.
Proof.
  apply (registerMiddleware_error_provenance
           (Scenario.container_with Scenario.users Scenario.without_resolve)
           0 0 7 (InvalidMiddlewareException "Logger")).
  reflexivity.
Defined.

Lemma bind_tuple_registration middlewareContainer applicationRef now module
    config routePath metatype :
  registrations
    (bind_tuple middlewareContainer applicationRef now
       (module, config, routePath, metatype)) =
  match getMiddleware middlewareContainer module !! name metatype with
  | None => []
  | Some middleware =>
      match resolve (instance middleware) with
      | None => []
      | Some instance_resolve =>
          let bound := binding (instance middleware) instance_resolve
                         applicationRef ALL routePath in
          match instance_resolve () with
          | Threw _ => []
          | Returned (VPromise (Settled t (Fulfilled h))) =>
              [(S (Nat.max now t), bound (VPlain h))]
          | Returned (VPromise _) => []
          | Returned v => [(now, bound v)]
          end
      end
  end.
Proof.
  rewrite bind_tuple_run. destruct (_ !! _) as [mw|]; [|done].
  destruct (resolve (instance mw)) as [rf|]; [|done]. cbn.
  by destruct (rf ()) as [[v|q|[t1 [h|e1]|]]|e1].
Qed.

(** ** What the binding phase does along the way *)

(** X10.  [resolve()] is invoked once for every bound tuple whose middleware
    type has a wrapper with a [resolve] member, so once per route for a
    middleware applied to several routes, and always in the tick in which
    the phase starts, whether or not other bindings fail. *)
Theorem resolve_invoked_once_per_tuple_at_start
    (middlewareContainer : MiddlewareContainer)
    (applicationRef : ApplicationRef) (now : tick) :
  let phase := registerMiddleware middlewareContainer applicationRef now in
  length (filter (λ te, is_ResolveInvoked te.2 = true) (trace phase))
  = length (filter (λ tuple, resolvable middlewareContainer tuple = true)
              (bound_tuples middlewareContainer))
  ∧ ∀ t ev, (t, ev) ∈ trace phase → is_ResolveInvoked ev = true → t = now.
Proof.
  intros phase. subst phase. rewrite registerMiddleware_trace. split.
  - rewrite filter_bind. apply length_bind_filter.
    intros [[[module config] routePath] metatype]. rewrite bind_tuple_run.
    unfold resolvable. destruct (_ !! _) as [mw|]; [|done].
    destruct (resolve (instance mw)) as [rf|]; [|done]. cbn.
    by destruct (rf ()) as [[v|q|[t1 [h|e1]|]]|e1].
  - intros t ev ([[[module config] routePath] metatype] & Hleaf & _)
      %list_elem_of_bind.
    rewrite bind_tuple_run in Hleaf.
    destruct (_ !! _) as [mw|]; [|by apply elem_of_nil in Hleaf].
    destruct (resolve (instance mw)) as [rf|]; [|by apply elem_of_nil in Hleaf].
    cbn in Hleaf. unfold before_resolve, binding in Hleaf.
    destruct (rf ()) as [[v|q|[t1 [h|e1]|]]|e1]; cbn in Hleaf;
      repeat (apply elem_of_cons in Hleaf as [Hleaf|Hleaf];
              [by injection Hleaf as -> ->|]);
      by apply elem_of_nil in Hleaf.
Qed.

(** X11.  Binding runs no handler: in the whole phase no bound handler and no
    exception handler is invoked, also when [resolve()] throws or a binding
    is rejected. *)
Theorem registerMiddleware_runs_no_handler
    (middlewareContainer : MiddlewareContainer)
    (applicationRef : ApplicationRef) (now t : tick) (ev : event) :
  (t, ev) ∈ trace (registerMiddleware middlewareContainer applicationRef now) →
  is_request_time ev = false.
Proof.
  rewrite registerMiddleware_trace.
  intros ([[[module config] routePath] metatype] & Hleaf & _)%list_elem_of_bind.
  rewrite bind_tuple_run in Hleaf.
  destruct (_ !! _) as [mw|]; [|by apply elem_of_nil in Hleaf].
  destruct (resolve (instance mw)) as [rf|]; [|by apply elem_of_nil in Hleaf].
  cbn in Hleaf. unfold before_resolve, binding in Hleaf.
  destruct (rf ()) as [[v|q|[t1 [h|e1]|]]|e1]; cbn in Hleaf;
    repeat (apply elem_of_cons in Hleaf as [Hleaf|Hleaf];
            [by injection Hleaf as -> ->|]);
    by apply elem_of_nil in Hleaf.
Qed.

Lemma registerMiddleware_runs_no_handler_witness :
  is_request_time
    (ResolveInvoked (Scenario.middleware_of (Scenario.resolve_throwing TypeError)))
  = false.
Proof.
  apply (registerMiddleware_runs_no_handler
           (Scenario.container_with Scenario.users
              (Scenario.middleware_of (Scenario.resolve_throwing TypeError)))
           0 0 0).
  vm_compute. do 2 right. left.
Defined.

(** X12.  The handlers that [resolve()] returns directly are registered in
    the tick in which the phase starts, in the order of the bound tuples
    (modules, then configurations, then routes, then middleware types as
    declared); a handler that comes from a promise is registered in a later
    tick, so after them, wherever its type stands in the declaration. *)
Theorem direct_handlers_are_registered_first_in_declared_order
    (middlewareContainer : MiddlewareContainer)
    (applicationRef : ApplicationRef) (now : tick) :
  let phase := registerMiddleware middlewareContainer applicationRef now in
  filter (λ te, te.1 = now) (registrations phase)
  = (bound_tuples middlewareContainer ≫= λ tuple,
       match direct_binding middlewareContainer applicationRef tuple with
       | Some ev => [(now, ev)]
       | None => []
       end)
  ∧ ∀ t ev, (t, ev) ∈ registrations phase → now ≤ t.
Proof.
  intros phase. subst phase. unfold registrations at 1 2.
  rewrite registerMiddleware_trace, !filter_bind. split.
  - apply list_bind_ext; [|done].
    intros [[[module config] routePath] metatype].
    change (filter _ (trace ?r)) with (registrations r).
    rewrite bind_tuple_registration.
    unfold direct_binding. destruct (_ !! _) as [mw|]; [|done].
    destruct (resolve (instance mw)) as [rf|]; [|done]. cbv zeta.
    destruct (rf ()) as [[v|q|[t1 [h|e1]|]]|e1]; try done.
    + by rewrite filter_cons_True.
    + by rewrite filter_cons_True.
    + rewrite filter_cons_False; [done|]. cbn. lia.
  - intros t ev ([[[module config] routePath] metatype] & Hleaf & _)
      %list_elem_of_bind.
    change (filter _ (trace ?r)) with (registrations r) in Hleaf.
    rewrite bind_tuple_registration in Hleaf.
    destruct (_ !! _) as [mw|]; [|by apply elem_of_nil in Hleaf].
    destruct (resolve (instance mw)) as [rf|]; [|by apply elem_of_nil in Hleaf].
    cbv zeta in Hleaf.
    destruct (rf ()) as [[v|q|[t1 [h|e1]|]]|e1];
      try (by apply elem_of_nil in Hleaf);
      apply list_elem_of_singleton in Hleaf; injection Hleaf as -> _; lia.
Qed.

(** X13.  Every router call of the phase belongs to one bound tuple: it is
    made on the router function for [ALL] with that tuple's route path, its
    proxy holds the exception handler built for the instance that the
    tuple's own module has resolved for the type, and the handler is what
    that instance's [resolve()] returned, or what the promise it returned was
    fulfilled with.  No instance of another module and no other path gets
    in. *)
Theorem registrations_come_from_their_own_tuple
    (middlewareContainer : MiddlewareContainer)
    (applicationRef : ApplicationRef) (now t : tick) (ev : event) :
  (t, ev) ∈ registrations
              (registerMiddleware middlewareContainer applicationRef now) →
  ∃ module config routePath metatype middleware instance_resolve handler,
    (module, config, routePath, metatype) ∈ bound_tuples middlewareContainer
    ∧ getMiddleware middlewareContainer module !! name metatype
      = Some middleware
    ∧ resolve (instance middleware) = Some instance_resolve
    ∧ ev = binding (instance middleware) instance_resolve applicationRef ALL
             routePath handler
    ∧ ((instance_resolve () = Returned handler
        ∧ instanceof_Promise handler = false ∧ t = now)
       ∨ ∃ t' h, instance_resolve ()
                 = Returned (VPromise (Settled t' (Fulfilled h)))
                 ∧ handler = VPlain h ∧ t = S (Nat.max now t')).
Proof.
  unfold registrations at 1. rewrite registerMiddleware_trace, filter_bind.
  intros ([[[module config] routePath] metatype] & Hleaf & Hin)
    %list_elem_of_bind.
  change (filter _ (trace ?r)) with (registrations r) in Hleaf.
  rewrite bind_tuple_registration in Hleaf.
  destruct (_ !! _) as [mw|] eqn:Hmw; [|by apply elem_of_nil in Hleaf].
  destruct (resolve (instance mw)) as [rf|] eqn:Hrf;
    [|by apply elem_of_nil in Hleaf].
  cbv zeta in Hleaf. exists module, config, routePath, metatype, mw, rf.
  destruct (rf ()) as [[v|q|[t1 [h|e1]|]]|e1] eqn:Hcall;
    try (by apply elem_of_nil in Hleaf);
    apply list_elem_of_singleton in Hleaf; injection Hleaf as -> ->;
    eexists; (do 4 (split; [done|])).
  - by left.
  - by left.
  - right. by exists t1, h.
Qed.

Lemma registrations_come_from_their_own_tuple_witness :
  let second :=
    Scenario.middleware_of (Scenario.resolve_to (VPlain Scenario.failing)) in
  let middlewareContainer :=
    Scenario.two_modules
      (Scenario.middleware_of (Scenario.resolve_to (VPlain Scenario.f))) second in
  ∃ module config routePath metatype middleware instance_resolve handler,
    (module, config, routePath, metatype) ∈ bound_tuples middlewareContainer
    ∧ getMiddleware middlewareContainer module !! name metatype
      = Some middleware
    ∧ resolve (instance middleware) = Some instance_resolve
    ∧ binding second (Scenario.resolve_to (VPlain Scenario.failing)) 0 ALL
        "/orders" (VPlain Scenario.failing)
      = binding (instance middleware) instance_resolve 0 ALL routePath handler
    ∧ ((instance_resolve () = Returned handler
        ∧ instanceof_Promise handler = false ∧ 0 = 0)
       ∨ ∃ t' h, instance_resolve ()
                 = Returned (VPromise (Settled t' (Fulfilled h)))
                 ∧ handler = VPlain h ∧ 0 = S (Nat.max 0 t')).
Proof.
  apply (registrations_come_from_their_own_tuple
           (Scenario.two_modules
              (Scenario.middleware_of (Scenario.resolve_to (VPlain Scenario.f)))
              (Scenario.middleware_of
                 (Scenario.resolve_to (VPlain Scenario.failing))))
           0 0 0).
  vm_compute. right. left.
Defined.

(** ** One binding whose handler comes from a promise *)

(** X5.  When [resolve()] returns a promise, [bindHandler] settles as that
    promise does, one tick later: it is fulfilled when the promise is,
    rejected with the error the promise is rejected with, and pending for
    ever when the promise never settles; and unless the promise is fulfilled
    the router is never called. *)
Theorem bindHandler_settles_as_the_promise
    (instance : NestMiddleware) (instance_resolve : unit → call_outcome value)
    (metatype : Type_) (applicationRef : ApplicationRef)
    (method : RequestMethod) (path : string) (now : tick)
    (p : promise plain) :
  resolve instance = Some instance_resolve →
  instance_resolve () = Returned (VPromise p) →
  let bound := bindHandler instance metatype applicationRef method path now in
  completion bound = settle_after now p
  ∧ (is_fulfilled p = false →
     trace bound
     = before_resolve instance instance_resolve applicationRef method now).
Proof.
  intros Hr Hp bound. subst bound. rewrite bindHandler_run, Hr. cbn.
  rewrite Hp. by destruct p as [t [h|e]|].
Qed.

Lemma bindHandler_settles_as_the_promise_witness :
  let instance_resolve :=
    Scenario.resolve_to (VPromise (Settled 4 (Rejected (UserError 8)))) in
  let instance := Scenario.middleware_of instance_resolve in
  let bound := bindHandler instance Scenario.Logger 0 ALL "/users" 1 in
  completion bound = Settled 5 (Rejected (UserError 8))
  ∧ trace bound = before_resolve instance instance_resolve 0 ALL 1.
Proof.
  destruct (bindHandler_settles_as_the_promise
              (Scenario.middleware_of
                 (Scenario.resolve_to
                    (VPromise (Settled 4 (Rejected (UserError 8))))))
              (Scenario.resolve_to (VPromise (Settled 4 (Rejected (UserError 8)))))
              Scenario.Logger 0 ALL "/users" 1
              (Settled 4 (Rejected (UserError 8))) eq_refl eq_refl)
    as [Hsettles Htrace].
  split; [exact Hsettles | exact (Htrace eq_refl)].
Defined.

(** ** Configurations that bind nothing *)

(** X4.  A configuration without routes, or whose [middleware] is an empty
    array, binds nothing and is fulfilled: no wrapper is looked up, so a
    middleware type it names that was never resolved goes unreported. *)
Theorem registerMiddlewareConfig_without_routes_or_types
    (middlewareContainer : MiddlewareContainer)
    (config : MiddlewareConfiguration) (module : string)
    (applicationRef : ApplicationRef) (now : tick) :
  forRoutes config = [] ∨ concat_into_empty (middleware config) = [] →
  let bound :=
    registerMiddlewareConfig middlewareContainer config module applicationRef
      now in
  is_fulfilled (completion bound) = true ∧ trace bound = [].
Proof.
  intros Hempty bound. subst bound. unfold registerMiddlewareConfig. split.
  - apply await_all_is_fulfilled. intros routePath Hr.
    destruct Hempty as [Hroutes|Htypes];
      [rewrite Hroutes in Hr; by apply elem_of_nil in Hr|].
    unfold route_callback. rewrite await_call_is_fulfilled.
    unfold registerRouteMiddleware. apply await_all_is_fulfilled.
    intros metatype Hmt. rewrite Htypes in Hmt. by apply elem_of_nil in Hmt.
  - rewrite await_all_trace. destruct Hempty as [->|Htypes]; [done|].
    induction (forRoutes config) as [|routePath routes IH]; [done|].
    rewrite bind_cons, IH, app_nil_r. unfold route_callback.
    rewrite call_await_run. cbn. unfold registerRouteMiddleware.
    by rewrite await_all_trace, Htypes.
Qed.

Lemma registerMiddlewareConfig_without_routes_or_types_witness :
  let config := {| middleware := Single Scenario.Auth; forRoutes := [] |} in
  let bound :=
    registerMiddlewareConfig Scenario.empty_container config "M" 0 0 in
  is_fulfilled (completion bound) = true ∧ trace bound = [].
Proof.
  apply (registerMiddlewareConfig_without_routes_or_types
           Scenario.empty_container
           {| middleware := Single Scenario.Auth; forRoutes := [] |} "M" 0 0).
  left. reflexivity.
Defined.

(** ** How the configuration phase ends *)

Lemma loadConfiguration_configs routesMapper c instance module m :
  configs_of m (loadConfiguration routesMapper c instance module).1
  = configs_of m c
    ++ (if decide (module = m) then loaded_by routesMapper instance else []).
Proof.
  unfold loadConfiguration, loaded_by.
  destruct (configure instance) as [hook|]; cbn;
    [|by destruct (decide _); rewrite app_nil_r].
  destruct (hook _) as [b [v|e]]; cbn;
    [|by destruct (decide _); rewrite app_nil_r].
  unfold configs_of, getConfigs. cbn. destruct (decide (module = m)) as [->|Hne].
  - apply lookup_configs_append_eq.
  - rewrite app_nil_r. apply lookup_configs_append_ne. congruence.
Qed.

Lemma resolve_callback_container routesMapper resolveInstances c entry :
  (resolve_callback routesMapper resolveInstances c entry).1
  = (loadConfiguration routesMapper c (Injector.instance entry.2) entry.1).1.
Proof.
  destruct entry as [name module]. unfold resolve_callback. cbn.
  by destruct (loadConfiguration _ _ _ _) as [c' [[]|e]].
Qed.

Lemma map_async_from_container routesMapper resolveInstances c xs m :
  configs_of m
    (map_async_from (resolve_callback routesMapper resolveInstances) c xs).1
  = configs_of m c
    ++ (xs ≫= λ entry,
          if decide (entry.1 = m)
          then loaded_by routesMapper (Injector.instance entry.2) else []).
Proof.
  revert c. induction xs as [|x xs IH]; intros c; cbn [map_async_from].
  - cbn. by rewrite app_nil_r.
  - rewrite bind_cons.
    pose proof (resolve_callback_container routesMapper resolveInstances c x)
      as Hx.
    destruct (resolve_callback _ _ c x) as [c1 body]. cbn [fst] in Hx. subst c1.
    specialize (IH (loadConfiguration routesMapper c (Injector.instance x.2)
                      x.1).1).
    destruct (map_async_from _ _ xs) as [c2 rest]. cbn [fst] in *.
    by rewrite IH, loadConfiguration_configs, app_assoc.
Qed.

(** X1.  The configurations that [register] leaves in the registry: for
    every module name, those it held before followed by the configurations
    that the hooks of the modules of that name have built, in module order.
    A module without hook, or whose hook throws, adds none, and neither a
    throwing hook nor a failing resolver keeps the configurations of the
    other modules from being loaded.  (The wrappers, which the resolver
    writes, are not described here.) *)
Theorem register_loads_every_module
    (routesMapper : RoutesMapper)
    (resolveInstances : Injector.Module_ → string → promise unit)
    (middlewareContainer : MiddlewareContainer) (container : NestContainer)
    (config : ApplicationConfig) (module : string) :
  configs_of module
    (register routesMapper resolveInstances middlewareContainer container
       config).1
  = configs_of module middlewareContainer
    ++ (getModules container ≫= λ entry,
          if decide (entry.1 = module)
          then loaded_by routesMapper (Injector.instance entry.2) else []).
Proof.
  unfold register, resolveMiddleware.
  pose proof (map_async_from_container routesMapper resolveInstances
                middlewareContainer (getModules container) module) as H.
  by destruct (map_async_from _ _ _) as [c callbacks].
Qed.

Lemma module_settles_is_fulfilled routesMapper resolveInstances now entry :
  is_fulfilled (module_settles routesMapper resolveInstances now entry) = true
  ↔ configure_throws routesMapper (Injector.instance entry.2) = None
    ∧ is_fulfilled (resolveInstances entry.2 entry.1) = true.
Proof.
  unfold module_settles. destruct (configure_throws _ _) as [e|]; cbn.
  - split; [done|by intros [? _]].
  - unfold await. destruct (resolveInstances _ _) as [t [[]|e]|]; cbn;
      split; try done; by intros [_ ?].
Qed.

(** X2.  [register] is fulfilled exactly when no [configure] hook throws and
    [resolveInstances] is fulfilled for every module; it is then fulfilled at
    least two ticks after its start and at least three ticks after the last
    module has been resolved. *)
Theorem register_fulfils_once_every_module_is_resolved
    (routesMapper : RoutesMapper)
    (resolveInstances : Injector.Module_ → string → promise unit)
    (middlewareContainer : MiddlewareContainer) (container : NestContainer)
    (config : ApplicationConfig) (now : tick) :
  let started :=
    (register routesMapper resolveInstances middlewareContainer container
       config).2 now in
  (is_fulfilled (completion started) = true ↔
   ∀ entry, entry ∈ getModules container →
     configure_throws routesMapper (Injector.instance entry.2) = None
     ∧ is_fulfilled (resolveInstances entry.2 entry.1) = true)
  ∧ ∀ t, completion started = Settled t (Fulfilled ()) →
      now + 2 ≤ t
      ∧ ∀ entry, entry ∈ getModules container →
          ∃ t', resolveInstances entry.2 entry.1 = Settled t' (Fulfilled ())
                ∧ t' + 3 ≤ t.
Proof.
  intros started. subst started. rewrite register_run. cbn. unfold getModules.
  set (ps := module_settles routesMapper resolveInstances now
               <$> modules container).
  split.
  - assert (is_fulfilled
              match settle_after now (promise_all now ps) with
              | Settled t o => Settled (S (Nat.max now t)) o
              | Pending => Pending
              end
            = is_fulfilled (promise_all now ps)) as ->.
    { by destruct (promise_all now ps) as [t [vs|e]|]. }
    rewrite promise_all_is_fulfilled. subst ps. split.
    + intros Hps entry Hentry.
      apply (module_settles_is_fulfilled routesMapper resolveInstances now).
      apply Hps, list_elem_of_fmap. by exists entry.
    + intros Hall p (entry & -> & Hentry)%list_elem_of_fmap.
      by apply module_settles_is_fulfilled, Hall.
  - intros t. destruct (promise_all now ps) as [t0 [vs|e]|] eqn:Hall; cbn;
      try done.
    intros [= <-]. apply promise_all_fulfilled_at in Hall as [Hnow Hps].
    split; [lia|]. intros entry Hentry.
    destruct (Hps (module_settles routesMapper resolveInstances now entry))
      as (tp & [] & Hs & Hle).
    { apply list_elem_of_fmap. by exists entry. }
    unfold module_settles in Hs.
    destruct (configure_throws _ _) as [e|]; [done|].
    unfold await in Hs. destruct (resolveInstances _ _) as [t' [[]|e]|];
      cbn in Hs; try done.
    injection Hs as <-. exists t'. split; [done|lia].
Qed.

Lemma register_fulfils_once_every_module_is_resolved_witness :
  0 + 2 ≤ 7
  ∧ ∀ entry,
      entry ∈ getModules
                (Scenario.container_of
                   (Scenario.module_with (Returned HUndefined))) →
      ∃ t', Scenario.resolved_at 4 entry.2 entry.1 = Settled t' (Fulfilled ())
            ∧ t' + 3 ≤ 7.
Proof.
  apply (proj2 (register_fulfils_once_every_module_is_resolved 0
                  (Scenario.resolved_at 4) Scenario.empty_container
                  (Scenario.container_of
                     (Scenario.module_with (Returned HUndefined))) 0 0) 7).
  reflexivity.
Defined.

Lemma promise_all_pending {A} (now : tick) (ps : list (promise A)) :
  promise_all now ps = Pending ↔
  (∀ p, p ∈ ps → rejection p = None) ∧ Pending ∈ ps.
Proof.
  split.
  - intros Hall.
    assert (∀ p, p ∈ ps → rejection p = None) as Hnone.
    { pose proof (rejection_promise_all now ps) as Hrej.
      rewrite Hall in Hrej. cbn in Hrej. symmetry in Hrej.
      intros p Hp. destruct p as [t [a|e]|]; try done.
      by destruct (proj1 (first_rejection_None ps) Hrej t e). }
    split; [done|]. apply not_all_fulfilled; [done|].
    intros Hful%(promise_all_is_fulfilled now). by rewrite Hall in Hful.
  - intros [Hnone Hin].
    destruct (promise_all now ps) as [t [vs|e]|] eqn:Hall; [| |done].
    + apply promise_all_fulfilled_at in Hall as [_ Hps].
      by destruct (Hps _ Hin) as (? & ? & ? & _).
    + apply promise_all_rejected, first_rejection_elem in Hall.
      by specialize (Hnone _ Hall).
Qed.

(** X3.  [register] never settles exactly when no module fails and, for some
    module whose hook does not throw, [resolveInstances] never settles: there
    is no timeout on resolution, and only a failure of another module ends
    the wait. *)
Theorem register_pending_without_timeout
    (routesMapper : RoutesMapper)
    (resolveInstances : Injector.Module_ → string → promise unit)
    (middlewareContainer : MiddlewareContainer) (container : NestContainer)
    (config : ApplicationConfig) (now : tick) :
  completion
    ((register routesMapper resolveInstances middlewareContainer container
        config).2 now) = Pending ↔
  (∀ entry, entry ∈ getModules container →
            module_failure routesMapper resolveInstances now entry = None)
  ∧ ∃ entry, entry ∈ getModules container
             ∧ configure_throws routesMapper (Injector.instance entry.2) = None
             ∧ resolveInstances entry.2 entry.1 = Pending.
Proof.
  rewrite register_run. cbn. unfold getModules.
  set (ps := module_settles routesMapper resolveInstances now
               <$> modules container).
  assert (match settle_after now (promise_all now ps) with
          | Settled t o => Settled (S (Nat.max now t)) o
          | Pending => Pending
          end = Pending ↔ promise_all now ps = Pending) as ->.
  { by destruct (promise_all now ps) as [t [vs|e]|]. }
  rewrite promise_all_pending. subst ps. split.
  - intros [Hnone (entry & Hs & Hentry)%list_elem_of_fmap]. split.
    + intros entry' Hentry'.
      destruct (module_failure _ _ now entry') as [[t e]|] eqn:Hf; [|done].
      apply module_settles_rejected in Hf.
      assert (rejection (module_settles routesMapper resolveInstances now entry')
              = None) as Hr.
      { apply Hnone, list_elem_of_fmap. by exists entry'. }
      by rewrite Hf in Hr.
    + exists entry. split; [done|]. unfold module_settles in Hs.
      destruct (configure_throws _ _) as [e|]; [done|]. split; [done|].
      unfold await in Hs. by destruct (resolveInstances _ _) as [t o|].
  - intros [Hnone (entry & Hentry & Hc & Hp)]. split.
    + intros p (entry' & -> & Hentry')%list_elem_of_fmap.
      destruct (rejection _) as [[t e]|] eqn:Hr; [|done].
      apply rejection_Some, module_settles_rejected in Hr.
      by rewrite (Hnone _ Hentry') in Hr.
    + apply list_elem_of_fmap. exists entry. split; [|done].
      unfold module_settles. by rewrite Hc, Hp.
Qed.

Lemma register_pending_without_timeout_witness :
  completion
    ((register 0 (λ _ _, Pending) Scenario.empty_container
        (Scenario.container_of Scenario.module_without_configure) 0).2 0)
  = Pending.
Proof.
  apply (proj2 (register_pending_without_timeout 0 (λ _ _, Pending)
                  Scenario.empty_container
                  (Scenario.container_of Scenario.module_without_configure)
                  0 0)).
  split.
  - intros entry Hentry. apply list_elem_of_singleton in Hentry as ->.
    reflexivity.
  - exists ("M", Scenario.module_without_configure).
    split; [left | split; reflexivity].
Defined.
